(** * Domain Lookup MCP server: the WHOIS engine of [src/main.py]

    A shallow embedding of the query executor ([run_whois_command]), the
    single-domain pipeline ([whois_domain]) and the bulk orchestrator
    ([whois_domains]), followed by the properties of the specification
    that concern them.

    Modelling conventions.
    - A Python [str] is a [string]; a character stands for the code point
      of the same number, so the model covers the texts whose code points
      lie in U+0000..U+00FF.  [is_space] and [lower_char] are Python's
      [str.isspace] and [str.lower] on that range.
    - A [dict] whose keys are computed at run time is a [gmap string _];
      a [dict] with a fixed set of possible keys is a record whose
      optional keys are [option] fields ([key in d] is [is_Some]).
    - The external resolver, the clock and exceptions are not computed:
      what one run of the [whois] process does is given by a [proc_run],
      and what one task of a bulk lookup does by a [task_run]. *)

From Stdlib Require Import String Ascii ZArith DecimalString DecimalPos List
  Bool Lia.
From stdpp Require Import gmap strings list fin_maps.

Open Scope string_scope.

(* ===================================================================== *)
(** * Python string primitives used by [main.py] *)
(* ===================================================================== *)

Module PyStr.

(** [str.isspace] of a one-character string, code points below 256:
    TAB, LF, VT, FF, CR, FS, GS, RS, US, SPACE, NEL and NBSP. *)
Definition is_space (c : ascii) : bool :=
  let n := nat_of_ascii c in
  (((9 <=? n) && (n <=? 13)) || ((28 <=? n) && (n <=? 32))
   || (n =? 133) || (n =? 160))%nat.

(** Upper-case code points below 256: A-Z, and U+00C0..U+00DE without the
    multiplication sign U+00D7. *)
Definition is_upper (c : ascii) : bool :=
  let n := nat_of_ascii c in
  (((65 <=? n) && (n <=? 90))
   || ((192 <=? n) && (n <=? 222) && negb (n =? 215)))%nat.

Definition lower_char (c : ascii) : ascii :=
  if is_upper c then ascii_of_nat (nat_of_ascii c + 32) else c.

(** [s.lower()] *)
Fixpoint lower (s : string) : string :=
  match s with
  | EmptyString => EmptyString
  | String c s' => String (lower_char c) (lower s')
  end.

(** [s.lstrip()] *)
Fixpoint lstrip (s : string) : string :=
  match s with
  | EmptyString => EmptyString
  | String c s' => if is_space c then lstrip s' else s
  end.

(** [s.rstrip()] *)
Fixpoint rstrip (s : string) : string :=
  match s with
  | EmptyString => EmptyString
  | String c s' =>
      match rstrip s' with
      | EmptyString => if is_space c then EmptyString else String c EmptyString
      | r => String c r
      end
  end.

(** [s.strip()] *)
Definition strip (s : string) : string := rstrip (lstrip s).

(** [s.startswith(p)] *)
Definition startswith (p s : string) : bool := String.prefix p s.

(** [sub in s] *)
Fixpoint contains (sub s : string) : bool :=
  startswith sub s ||
  match s with
  | EmptyString => false
  | String _ s' => contains sub s'
  end.

(** [s.replace(old, new)] for a non-empty [old]: the occurrences of [old]
    are found left to right without overlap.  [skip] counts the characters
    of a matched occurrence that are still to be dropped. *)
Fixpoint replace_go (old new : string) (skip : nat) (s : string) : string :=
  match s with
  | EmptyString => EmptyString
  | String c s' =>
      match skip with
      | S k => replace_go old new k s'
      | O =>
          if startswith old s
          then new +:+ replace_go old new (String.length old - 1) s'
          else String c (replace_go old new 0 s')
      end
  end.

(** With an empty [old] Python puts [new] before every character and at
    the end. *)
Fixpoint intersperse (new s : string) : string :=
  match s with
  | EmptyString => new
  | String c s' => new +:+ String c (intersperse new s')
  end.

Definition replace (old new s : string) : string :=
  match old with
  | EmptyString => intersperse new s
  | _ => replace_go old new 0 s
  end.

(** [s.split(sep)] for a one-character separator; the list is never
    empty. *)
Fixpoint split (sep : ascii) (s : string) : list string :=
  match s with
  | EmptyString => [EmptyString]
  | String c s' =>
      if Ascii.eqb c sep then EmptyString :: split sep s'
      else match split sep s' with
           | h :: t => String c h :: t
           | [] => [String c EmptyString]
           end
  end.

(** [s.split(sep, 1)] for a one-character separator: one piece when [sep]
    does not occur, otherwise the text before and after its first
    occurrence. *)
Fixpoint split1 (sep : ascii) (s : string) : list string :=
  match s with
  | EmptyString => [EmptyString]
  | String c s' =>
      if Ascii.eqb c sep then [EmptyString; s']
      else match split1 sep s' with
           | h :: t => String c h :: t
           | [] => [String c EmptyString]
           end
  end.

(** [bool(s)] *)
Definition nonempty (s : string) : bool :=
  match s with EmptyString => false | _ => true end.

(** Every character of [s] satisfies [p]. *)
Fixpoint all_chars (p : ascii -> bool) (s : string) : bool :=
  match s with
  | EmptyString => true
  | String c s' => p c && all_chars p s'
  end.

(** [str(n)] for an [int]. *)
Definition str_of_int (n : Z) : string := NilZero.string_of_int (Z.to_int n).

(** [str.isdigit] of a one-character string, code points below 256: the
    digits 0-9 and the superscripts U+00B2, U+00B3 and U+00B9. *)
Definition is_digit (c : ascii) : bool :=
  let n := nat_of_ascii c in
  (((48 <=? n) && (n <=? 57)) || (n =? 178) || (n =? 179) || (n =? 185))%nat.

(** [s.isdigit()]: at least one character, and digits only. *)
Definition isdigit (s : string) : bool := nonempty s && all_chars is_digit s.

(** Lower-case code points below 256 whose upper-case form is 32 below:
    a-z, and U+00E0..U+00FE without the division sign U+00F7. *)
Definition is_lower (c : ascii) : bool :=
  let n := nat_of_ascii c in
  (((97 <=? n) && (n <=? 122))
   || ((224 <=? n) && (n <=? 254) && negb (n =? 247)))%nat.

(** [c.upper()] for a one-character string.  The sharp s U+00DF becomes
    [SS].  The micro sign U+00B5 and the y with diaeresis U+00FF become
    U+039C and U+0178, which are not code points of the model: [None]. *)
Definition upper_char (c : ascii) : option string :=
  let n := nat_of_ascii c in
  if ((n =? 181) || (n =? 255))%nat then None
  else if (n =? 223)%nat then Some "SS"
  else if is_lower c then Some (String (ascii_of_nat (n - 32)) EmptyString)
  else Some (String c EmptyString).

(** [s.upper()]; [None] when the result is not a text of the model. *)
Fixpoint upper (s : string) : option string :=
  match s with
  | EmptyString => Some EmptyString
  | String c s' =>
      match upper_char c, upper s' with
      | Some u, Some r => Some (u +:+ r)
      | _, _ => None
      end
  end.

End PyStr.

Import PyStr.

(* ===================================================================== *)
(** * Data model *)
(* ===================================================================== *)

(** A value of [parsed_fields]: a [str], or a [list] of [str] once the
    field has repeated. *)
Inductive field_value : Type :=
| FStr (v : string)
| FList (vs : list string).

(** The [analysis] dictionary of [whois_domain]. *)
Record Analysis : Type := mkAnalysis {
  registered : bool;
  has_registrar : bool;
  has_creation_date : bool;
  has_expiry_date : bool
}.

(** The dictionary returned by [run_whois_command] and completed by
    [whois_domain].  [query] and [timestamp] are always present. *)
Record QueryResult : Type := mkQueryResult {
  query : string;
  timestamp : string;
  error : option string;
  raw_output : option string;
  parsed_fields : option (gmap string field_value);
  is_registered : option bool;
  analysis : option Analysis
}.

(** The [summary] dictionary of [whois_domains]. *)
Record Summary : Type := mkSummary {
  total_domains : Z;
  registered_domains : Z;
  available_domains : Z;
  errors : Z;
  summary_timestamp : string
}.

Record BulkResult : Type := mkBulkResult {
  results : gmap string QueryResult;
  summary : Summary
}.

(** What one run of the resolver process does.  [stdout] and [stderr] are
    the streams after [decode('utf-8', errors='ignore')], which never
    raises. *)
Inductive proc_run : Type :=
| Raises (e : string)
    (* an [Exception] with [str(e) = e] inside the [try] block *)
| TimesOut
    (* [asyncio.wait_for] raised [TimeoutError] *)
| Completes (returncode : Z) (stdout stderr : string).

(** The environment of one lookup: the resolver run and the clock. *)
Record env : Type := mkEnv {
  run : proc_run;
  now : string
}.

(** What one task of [asyncio.gather(..., return_exceptions=True)] does:
    it returns, or an exception escapes from it. *)
Inductive task_run : Type :=
| TaskRaises
| TaskRuns (e : env).

(* ===================================================================== *)
(** * [run_whois_command] *)
(* ===================================================================== *)

Definition colon : ascii := ":"%char.
Definition newline : ascii := "010"%char.
Definition slash : ascii := "/"%char.

(** The body of the loop over the lines, lines 84-97.  The guard
    [':' in line] makes [line.split(':', 1)] a pair; the last branch of
    the match on it is dead code (see [split1_two]). *)
Definition parse_line (fields : gmap string field_value) (line : string)
  : gmap string field_value :=
  let line := strip line in
  if contains ":" line && negb (startswith "%" line)
     && negb (startswith "#" line)
  then
    match split1 colon line with
    | [key; value] =>
        let key := replace " " "_" (lower (strip key)) in
        let value := strip value in
        if nonempty value && nonempty key then
          match fields !! key with
          | Some (FList vs) => <[key := FList (vs ++ [value])]> fields
          | Some (FStr v0) => <[key := FList [v0; value]]> fields
          | None => <[key := FStr value]> fields
          end
        else fields
    | _ => fields
    end
  else fields.

Definition parse_lines (lines : list string) : gmap string field_value :=
  fold_left parse_line lines ∅.

(** Lines 74-97: the value of [parsed_data["parsed_fields"]]. *)
Definition parse_fields (raw : string) : gmap string field_value :=
  parse_lines (split newline raw).

Definition error_result (msg q : string) (e : env) : QueryResult :=
  {| query := q; timestamp := now e; error := Some msg;
     raw_output := None; parsed_fields := None;
     is_registered := None; analysis := None |}.

Definition run_whois_command (q : string) (timeout : Z) (e : env)
  : QueryResult :=
  match run e with
  | Raises msg => error_result ("Internal error: " +:+ msg) q e
  | TimesOut =>
      error_result
        ("WHOIS query timed out after " +:+ str_of_int timeout +:+ " seconds")
        q e
  | Completes returncode stdout stderr =>
      if negb (returncode =? 0)%Z then
        let error_msg := strip stderr in
        error_result
          ("WHOIS command failed: " +:+
           (if nonempty error_msg then error_msg else "Unknown error"))
          q e
      else
        {| query := q; timestamp := now e; error := None;
           raw_output := Some stdout;
           parsed_fields := Some (parse_fields stdout);
           is_registered := None; analysis := None |}
  end.

(* ===================================================================== *)
(** * [whois_domain] *)
(* ===================================================================== *)

(** Lines 138-145: the cleanup of the [domain] argument. *)
Definition clean_domain (domain : string) : string :=
  let domain := lower (strip domain) in
  let domain := replace "https://" "" (replace "http://" "" domain) in
  let domain := hd "" (split slash domain) in
  hd "" (split colon domain).

Definition unavailable_phrases : list string :=
  [ "no match"; "not found"; "no data found"; "status: available";
    "no matching record"; "not registered" ].

(** [bool(x)] for the result of [parsed_fields.get(k)]. *)
Definition truthy (x : option field_value) : bool :=
  match x with
  | None => false
  | Some (FStr v) => nonempty v
  | Some (FList vs) => match vs with [] => false | _ => true end
  end.

(** [x or y] *)
Definition py_or (x y : option field_value) : option field_value :=
  if truthy x then x else y.

Definition whois_domain (domain : string) (e : env) : QueryResult :=
  let domain := clean_domain domain in
  let result := run_whois_command domain 10 e in
  match error result with
  | Some _ => result
  | None =>
      let raw := lower (default "" (raw_output result)) in
      let fields := default ∅ (parsed_fields result) in
      let is_reg :=
        if existsb (fun phrase => contains phrase raw) unavailable_phrases
        then false else true in
      {| query := query result; timestamp := timestamp result;
         error := error result; raw_output := raw_output result;
         parsed_fields := parsed_fields result;
         is_registered := Some is_reg;
         analysis := Some
           {| registered := is_reg;
              has_registrar := truthy (fields !! "registrar");
              has_creation_date :=
                truthy (py_or (fields !! "creation_date")
                              (fields !! "created"));
              has_expiry_date :=
                truthy (py_or (fields !! "expiry_date")
                              (fields !! "expires")) |} |}
  end.

(* ===================================================================== *)
(** * [whois_domains] *)
(* ===================================================================== *)

(** The outcome of one task as [gather] returns it: an exception object,
    or the pair that [lookup_single] returns. *)
Inductive task_result : Type :=
| TException
| TPair (domain : string) (whois_result : QueryResult).

(** Lines 191-196.  The semaphore and the delay change when the lookup
    runs, not what it returns.  The pair carries the [domain] argument of
    [lookup_single] itself. *)
Definition lookup_single (domain : string) (t : task_run) : task_result :=
  match t with
  | TaskRaises => TException
  | TaskRuns e => TPair domain (whois_domain domain e)
  end.

(** Lines 199-200: the results come in the order of [domains]; the task
    at position [i] runs in [world i]. *)
Definition gather (world : nat -> task_run) (domains : list string)
  : list task_result :=
  imap (fun i domain => lookup_single domain (world i)) domains.

(** The state of the loop of lines 203-218. *)
Record acc : Type := mkAcc {
  domain_results : gmap string QueryResult;
  registered_count : Z;
  error_count : Z
}.

Definition acc0 : acc :=
  {| domain_results := ∅; registered_count := 0; error_count := 0 |}.

Definition process_result (a : acc) (r : task_result) : acc :=
  match r with
  | TException =>
      {| domain_results := domain_results a;
         registered_count := registered_count a;
         error_count := error_count a + 1 |}
  | TPair domain whois_result =>
      {| domain_results := <[domain := whois_result]> (domain_results a);
         registered_count :=
           if default false (is_registered whois_result)
           then registered_count a + 1 else registered_count a;
         error_count :=
           if bool_decide (is_Some (error whois_result))
           then error_count a + 1 else error_count a |}
  end.

Definition whois_domains (domains : list string) (world : nat -> task_run)
  (clock : string) : BulkResult :=
  let a := fold_left process_result (gather world domains) acc0 in
  {| results := domain_results a;
     summary :=
       {| total_domains := Z.of_nat (length domains);
          registered_domains := registered_count a;
          available_domains :=
            Z.of_nat (length domains) - registered_count a - error_count a;
          errors := error_count a;
          summary_timestamp := clock |} |}.

(* ===================================================================== *)
(** * [resolve_domain_ip], [whois_tld], [whois_ip], [whois_asn] *)
(* ===================================================================== *)

(** Lines 112-124.  [gethostbyname] stands for [socket.gethostbyname]:
    the address, or [None] when it raises; the handler of the function
    turns the exception into [None]. *)
Definition resolve_domain_ip (domain : string)
  (gethostbyname : string -> option string) : option string :=
  let domain := replace "https://" "" (replace "http://" "" domain) in
  let domain := hd "" (split slash domain) in
  let domain := hd "" (split colon domain) in
  gethostbyname domain.

(** Lines 243-253. *)
Definition whois_tld (tld : string) (e : env) : QueryResult :=
  let tld := lower (strip tld) in
  let tld := if negb (startswith "." tld) then "." +:+ tld else tld in
  run_whois_command tld 10 e.

(** Lines 267-272. *)
Definition whois_ip (ip_address : string) (e : env) : QueryResult :=
  let ip_address := strip ip_address in
  run_whois_command ip_address 10 e.

(** The argument of [whois_asn], a [Union[str, int]]. *)
Inductive asn_input : Type :=
| AsnInt (n : Z)
| AsnStr (s : string).

(** Lines 286-298.  The result is [None] only where [upper] is: on a text
    whose upper-case form is outside the model.  [str_of_int] has no
    limit on the length of the number, where the interpreter refuses to
    convert an integer of more than 4300 digits. *)
Definition whois_asn (asn : asn_input) (e : env) : option QueryResult :=
  match asn with
  | AsnInt n => Some (run_whois_command ("AS" +:+ str_of_int n) 10 e)
  | AsnStr s =>
      match upper (strip s) with
      | Some asn =>
          let asn := if isdigit asn then "AS" +:+ asn else asn in
          Some (run_whois_command asn 10 e)
      | None => None
      end
  end.

(* ===================================================================== *)
(** * Definitions used to state the properties *)
(* ===================================================================== *)

(** The field that one line contributes: the guard and the normalisation
    of [parse_line], without the dictionary. *)
Definition field_of_line (line : string) : option (string * string) :=
  let line := strip line in
  if contains ":" line && negb (startswith "%" line)
     && negb (startswith "#" line)
  then
    match split1 colon line with
    | [key; value] =>
        let key := replace " " "_" (lower (strip key)) in
        let value := strip value in
        if nonempty value && nonempty key then Some (key, value) else None
    | _ => None
    end
  else None.

(** The update of the dictionary by one field, lines 90-97. *)
Definition store (fields : gmap string field_value) (key value : string)
  : gmap string field_value :=
  match fields !! key with
  | Some (FList vs) => <[key := FList (vs ++ [value])]> fields
  | Some (FStr v0) => <[key := FList [v0; value]]> fields
  | None => <[key := FStr value]> fields
  end.

(** The values that the lines give to the key [k], in their order. *)
Definition values_of (k : string) (lines : list string) : list string :=
  omap (fun line =>
          match field_of_line line with
          | Some (k', v) => if decide (k' = k) then Some v else None
          | None => None
          end) lines.

(** What one more value does to the entry of a key. *)
Definition add_value (o : option field_value) (v : string)
  : option field_value :=
  match o with
  | Some (FList vs) => Some (FList (vs ++ [v]))
  | Some (FStr v0) => Some (FList [v0; v])
  | None => Some (FStr v)
  end.

(** A stored value is not empty: a non-empty string, or a non-empty list
    of non-empty strings. *)
Definition value_nonempty (fv : field_value) : bool :=
  match fv with
  | FStr v => nonempty v
  | FList vs => match vs with [] => false | _ => forallb nonempty vs end
  end.

(** The invariant of the loop: every key is normalised and no value is
    empty. *)
Definition fields_ok (fields : gmap string field_value) : Prop :=
  forall k fv, fields !! k = Some fv ->
    lower k = k /\ contains " " k = false /\ value_nonempty fv = true.

Definition not_char (c : ascii) : ascii -> bool :=
  fun x => negb (Ascii.eqb x c).

Definition lower_fixed (c : ascii) : bool := Ascii.eqb (lower_char c) c.

Definition dquote : ascii := "034"%char.

(** An environment in which the resolver exits with status 0 and prints
    [out]. *)
Definition prints (out : string) : env :=
  {| run := Completes 0 out ""; now := "2024-01-01T00:00:00+00:00" |}.

(** The text [No match for domain "NOPE123XYZ.COM".] *)
Definition no_match_text : string :=
  "No match for domain " +:+ String dquote "NOPE123XYZ.COM"
  +:+ String dquote ".".

(** A text with a banner line and a field that occurs three times. *)
Definition sample_text : string :=
  "% banner: ignored" +:+ String newline
  "Name Server: ns1.example.com" +:+ String newline
  "Registrar: Example Inc" +:+ String newline
  "name server: ns2.example.com" +:+ String newline
  "NAME SERVER:  ns3.example.com ".

(** The entry that a list of values gives to a key. *)
Definition entry_of_values (vs : list string) : option field_value :=
  match vs with
  | [] => None
  | [v] => Some (FStr v)
  | _ => Some (FList vs)
  end.

(** Some line of the text gives the key [k]. *)
Definition has_field (k raw : string) : bool :=
  match values_of k (split newline raw) with
  | [] => false
  | _ => true
  end.

Definition not_space (c : ascii) : bool := negb (is_space c).

(** A character of a host name or of a port: no white space, no [:] and
    no [/]. *)
Definition plain (c : ascii) : bool :=
  not_space c && not_char colon c && not_char slash c.

(** The text of a URL: a scheme, a host, and optionally a port and a
    path. *)
Definition url_tail (port path : option string) : string :=
  match port with Some p => ":" +:+ p | None => "" end
  +:+ match path with Some p => "/" +:+ p | None => "" end.

Definition url_text (scheme host : string) (port path : option string)
  : string :=
  scheme +:+ host +:+ url_tail port path.

(** A port is not empty and made of plain characters. *)
Definition port_ok (port : option string) : bool :=
  match port with
  | Some p => nonempty p && all_chars plain p
  | None => true
  end.

(** What may follow a host or a port in a URL: nothing, a path, or a
    colon that is not followed by a slash. *)
Definition tail_ok (r : string) : bool :=
  match r with
  | EmptyString => true
  | String x t =>
      Ascii.eqb x slash
      || (Ascii.eqb x colon
          && match t with
             | EmptyString => true
             | String y _ => negb (Ascii.eqb y slash)
             end)
  end.

Definition carriage_return : ascii := "013"%char.

(** A task that counts as an error: it raised, or its result has an
    [error]. *)
Definition failed (r : task_result) : bool :=
  match r with
  | TException => true
  | TPair _ whois_result => bool_decide (is_Some (error whois_result))
  end.

(** A task that counts as registered. *)
Definition found_registered (r : task_result) : bool :=
  match r with
  | TException => false
  | TPair _ whois_result => default false (is_registered whois_result)
  end.

(** The failure that a message announces, by its first words: 0 for an
    internal error, 1 for a timeout, 2 for a failed command. *)
Definition failure_kind (msg : string) : option nat :=
  if startswith "Internal error: " msg then Some 0
  else if startswith "WHOIS query timed out after " msg then Some 1
  else if startswith "WHOIS command failed: " msg then Some 2
  else None.

(* ===================================================================== *)
(** * Facts about the string primitives *)
(* ===================================================================== *)

Section StringFacts.

Lemma append_nil_l (a : string) : "" +:+ a = a.
Proof. reflexivity. Qed.

Lemma append_cons (x : ascii) (a b : string) :
  String x a +:+ b = String x (a +:+ b).
Proof. reflexivity. Qed.

Lemma append_assoc (a b c : string) : (a +:+ b) +:+ c = a +:+ (b +:+ c).
Proof.
  induction a as [|x a IH]; [reflexivity|].
  rewrite !append_cons. now f_equal.
Qed.

Lemma append_nil_r (a : string) : a +:+ "" = a.
Proof.
  induction a as [|x a IH]; [reflexivity|].
  rewrite append_cons. now f_equal.
Qed.

Lemma startswith_nil (s : string) : startswith "" s = true.
Proof. destruct s; reflexivity. Qed.

Lemma startswith_cons (a : ascii) (p : string) (b : ascii) (s : string) :
  startswith (String a p) (String b s)
  = (Ascii.eqb a b && startswith p s).
Proof.
  unfold startswith; simpl.
  destruct (ascii_dec a b) as [->|Hne].
  - now rewrite Ascii.eqb_refl.
  - apply Ascii.eqb_neq in Hne. now rewrite Hne.
Qed.

Lemma startswith_spec (p s : string) :
  startswith p s = true <-> exists t, s = p +:+ t.
Proof.
  revert s; induction p as [|a p IH]; intros s.
  - rewrite startswith_nil. split; [intros _; now exists s | reflexivity].
  - destruct s as [|b s].
    + split; [discriminate | intros [t Ht]; discriminate].
    + rewrite startswith_cons, andb_true_iff, Ascii.eqb_eq, IH.
      split.
      * intros [-> [t ->]]. now exists t.
      * intros [t Ht]. rewrite append_cons in Ht.
        injection Ht as -> ->. eauto.
Qed.

Lemma contains_spec (p s : string) :
  contains p s = true <-> exists a b, s = a +:+ p +:+ b.
Proof.
  split.
  - induction s as [|c s IH]; cbn [contains]; rewrite orb_true_iff.
    + intros [H|H]; [|discriminate].
      apply startswith_spec in H as [t Ht]. now exists "", t.
    + intros [H|H].
      * apply startswith_spec in H as [t Ht]. now exists "", t.
      * destruct (IH H) as (a & b & ->). now exists (String c a), b.
  - intros (a & b & ->). induction a as [|c a IH].
    + rewrite append_nil_l.
      assert (startswith p (p +:+ b) = true) as H
        by (apply startswith_spec; eauto).
      destruct (p +:+ b); cbn [contains]; now rewrite H.
    + rewrite append_cons. cbn [contains]. rewrite IH. apply orb_true_r.
Qed.

Lemma all_chars_app (f : ascii -> bool) (a b : string) :
  all_chars f (a +:+ b) = all_chars f a && all_chars f b.
Proof.
  induction a as [|x a IH]; [reflexivity|].
  rewrite append_cons. simpl. now rewrite IH, andb_assoc.
Qed.

Lemma startswith_all_chars (f : ascii -> bool) (p s : string) :
  startswith p s = true -> all_chars f s = true -> all_chars f p = true.
Proof.
  intros H Hs. apply startswith_spec in H as [t ->].
  rewrite all_chars_app in Hs. now apply andb_true_iff in Hs.
Qed.

(** A one-character text occurs in [s] iff some character of [s] is that
    character. *)
Lemma contains_char (c : ascii) (s : string) :
  contains (String c "") s = negb (all_chars (not_char c) s).
Proof.
  induction s as [|x s IH]; [reflexivity|].
  cbn [contains all_chars]. rewrite startswith_cons, startswith_nil, IH.
  unfold not_char. rewrite (eqb_sym x c).
  destruct (Ascii.eqb c x); reflexivity.
Qed.

(** ** [lower] *)

Lemma lower_char_idem (c : ascii) : lower_char (lower_char c) = lower_char c.
Proof. destruct c as [[] [] [] [] [] [] [] []]; reflexivity. Qed.

Lemma lower_all_fixed (s : string) : all_chars lower_fixed (lower s) = true.
Proof.
  induction s as [|c s IH]; simpl; [reflexivity|].
  rewrite IH, andb_true_r. unfold lower_fixed.
  rewrite lower_char_idem. apply Ascii.eqb_refl.
Qed.

Lemma lower_of_fixed (s : string) :
  all_chars lower_fixed s = true -> lower s = s.
Proof.
  induction s as [|c s IH]; simpl; [reflexivity|].
  intros [Hc Hs]%andb_true_iff. apply Ascii.eqb_eq in Hc.
  now rewrite Hc, IH.
Qed.

Lemma lower_idem (s : string) : lower (lower s) = lower s.
Proof. apply lower_of_fixed, lower_all_fixed. Qed.

(** ** [strip] *)

Lemma all_chars_lstrip (f : ascii -> bool) (s : string) :
  all_chars f s = true -> all_chars f (lstrip s) = true.
Proof.
  induction s as [|c s IH]; simpl; [reflexivity|].
  intros [Hc Hs]%andb_true_iff. destruct (is_space c); [auto|].
  simpl. now rewrite Hc, Hs.
Qed.

Lemma all_chars_rstrip (f : ascii -> bool) (s : string) :
  all_chars f s = true -> all_chars f (rstrip s) = true.
Proof.
  induction s as [|c s IH]; simpl; [reflexivity|].
  intros [Hc Hs]%andb_true_iff. specialize (IH Hs).
  destruct (rstrip s) as [|y r].
  - destruct (is_space c); simpl; [reflexivity | now rewrite Hc].
  - cbn [all_chars] in *. now rewrite Hc, IH.
Qed.

Lemma all_chars_strip (f : ascii -> bool) (s : string) :
  all_chars f s = true -> all_chars f (strip s) = true.
Proof. intros H. now apply all_chars_rstrip, all_chars_lstrip. Qed.

Lemma rstrip_cons_nonspace (c : ascii) (s : string) :
  is_space c = false -> rstrip (String c s) = String c (rstrip s).
Proof. intros H. simpl. rewrite H. now destruct (rstrip s). Qed.

Lemma rstrip_idem (s : string) : rstrip (rstrip s) = rstrip s.
Proof.
  induction s as [|c s IH]; simpl; [reflexivity|].
  destruct (rstrip s) as [|y r] eqn:E.
  - destruct (is_space c) eqn:Hc; simpl; [reflexivity | now rewrite Hc].
  - change (rstrip (String c (String y r))) with
      (match rstrip (String y r) with
       | "" => if is_space c then "" else String c ""
       | r0 => String c r0
       end).
    now rewrite IH.
Qed.

Lemma lstrip_head (s : string) :
  lstrip s = "" \/
  exists c t, lstrip s = String c t /\ is_space c = false.
Proof.
  induction s as [|c s IH]; simpl; [now left|].
  destruct (is_space c) eqn:Hc; [exact IH|]. right. eauto.
Qed.

Lemma strip_head (s : string) :
  strip s = "" \/
  exists c t, strip s = String c (rstrip t) /\ is_space c = false.
Proof.
  unfold strip. destruct (lstrip_head s) as [->|(c & t & -> & Hc)].
  - now left.
  - right. exists c, t. split; [now apply rstrip_cons_nonspace | exact Hc].
Qed.

Lemma strip_idem (s : string) : strip (strip s) = strip s.
Proof.
  destruct (strip_head s) as [->|(c & t & -> & Hc)]; [reflexivity|].
  unfold strip. simpl lstrip. rewrite Hc.
  rewrite rstrip_cons_nonspace by exact Hc. now rewrite rstrip_idem.
Qed.

End StringFacts.

Section ReplaceSplitFacts.

(** ** [replace] *)

Lemma all_chars_replace_go (f : ascii -> bool) (old new : string)
  (k : nat) (s : string) :
  all_chars f new = true -> all_chars f s = true ->
  all_chars f (replace_go old new k s) = true.
Proof.
  intros Hnew. revert k. induction s as [|c s IH]; intros k; [reflexivity|].
  cbn [all_chars replace_go]. intros [Hc Hs]%andb_true_iff.
  destruct k as [|k]; [|now apply IH].
  destruct (startswith old (String c s)).
  - rewrite all_chars_app, Hnew. now apply IH.
  - cbn [all_chars]. rewrite Hc. now apply IH.
Qed.

Lemma all_chars_replace (f : ascii -> bool) (old new s : string) :
  old <> "" -> all_chars f new = true -> all_chars f s = true ->
  all_chars f (replace old new s) = true.
Proof.
  intros Hold Hnew Hs. destruct old; [congruence|].
  now apply all_chars_replace_go.
Qed.

(** Nothing is replaced in a text where [old] cannot occur because one of
    its characters is excluded. *)
Lemma replace_absent (f : ascii -> bool) (old new s : string) :
  all_chars f old = false -> all_chars f s = true -> replace old new s = s.
Proof.
  intros Hold Hs.
  assert (replace old new s = replace_go old new 0 s) as ->
    by (destruct old; [discriminate | reflexivity]).
  induction s as [|c s IH]; [reflexivity|].
  cbn [replace_go].
  destruct (startswith old (String c s)) eqn:E.
  - apply (startswith_all_chars f) in E; congruence.
  - cbn [all_chars] in Hs. apply andb_true_iff in Hs as [_ Hs].
    now rewrite IH.
Qed.

(** After [replace(' ', '_')] no space is left. *)
Lemma replace_space_no_space (s : string) :
  all_chars (not_char " ") (replace " " "_" s) = true.
Proof.
  change (replace " " "_" s) with (replace_go " " "_" 0 s).
  induction s as [|c s IH]; [reflexivity|].
  cbn [replace_go]. rewrite startswith_cons, startswith_nil, andb_true_r.
  cbn [String.length Nat.sub].
  destruct (Ascii.eqb " " c) eqn:E.
  - rewrite all_chars_app, IH. reflexivity.
  - cbn [all_chars]. rewrite IH, andb_true_r.
    unfold not_char. now rewrite eqb_sym, E.
Qed.

(** ** [split] *)

Lemma split_nonempty (c : ascii) (s : string) : split c s <> [].
Proof.
  destruct s as [|x s]; simpl; [discriminate|].
  destruct (Ascii.eqb x c); [discriminate|].
  destruct (split c s); discriminate.
Qed.

Lemma all_chars_split_hd (f : ascii -> bool) (c : ascii) (s : string) :
  all_chars f s = true -> all_chars f (hd "" (split c s)) = true.
Proof.
  induction s as [|x s IH]; simpl; [reflexivity|].
  intros [Hx Hs]%andb_true_iff. specialize (IH Hs).
  destruct (Ascii.eqb x c); [reflexivity|].
  destruct (split c s) as [|h t]; simpl in *; now rewrite Hx.
Qed.

Lemma split_hd_no_sep (c : ascii) (s : string) :
  all_chars (not_char c) (hd "" (split c s)) = true.
Proof.
  induction s as [|x s IH]; simpl; [reflexivity|].
  destruct (Ascii.eqb x c) eqn:E; [reflexivity|].
  destruct (split c s) as [|h t]; simpl in *; unfold not_char at 1;
    now rewrite E.
Qed.

Lemma split_absent (c : ascii) (s : string) :
  all_chars (not_char c) s = true -> split c s = [s].
Proof.
  induction s as [|x s IH]; simpl; [reflexivity|].
  unfold not_char at 1. intros [Hx Hs]%andb_true_iff.
  apply negb_true_iff in Hx. now rewrite Hx, (IH Hs).
Qed.

(** The lines of a text: a separator ends the last line of what comes
    before it. *)
Lemma split_app_sep (c : ascii) (a b : string) :
  split c (a +:+ String c b) = (split c a ++ split c b)%list.
Proof.
  induction a as [|x a IH].
  - rewrite append_nil_l. simpl. now rewrite Ascii.eqb_refl.
  - rewrite append_cons. simpl. rewrite IH.
    destruct (Ascii.eqb x c); [reflexivity|].
    pose proof (split_nonempty c a).
    destruct (split c a); [congruence | reflexivity].
Qed.

(** ** [split(sep, 1)] *)

Lemma split1_two (c : ascii) (s : string) :
  contains (String c "") s = true ->
  exists k v, split1 c s = [k; v] /\ s = k +:+ String c v
              /\ all_chars (not_char c) k = true.
Proof.
  rewrite contains_char, negb_true_iff.
  induction s as [|x s IH]; [discriminate|].
  cbn [all_chars split1]. unfold not_char at 1.
  destruct (Ascii.eqb x c) eqn:E.
  - intros _. apply Ascii.eqb_eq in E as ->. now exists "", s.
  - simpl. intros H. destruct (IH H) as (k & v & -> & -> & Hk).
    exists (String x k), v. repeat split.
    cbn [all_chars]. unfold not_char at 1. now rewrite E, Hk.
Qed.

Lemma split1_absent (c : ascii) (s : string) :
  contains (String c "") s = false -> split1 c s = [s].
Proof.
  rewrite contains_char, negb_false_iff.
  induction s as [|x s IH]; [reflexivity|].
  cbn [all_chars split1]. unfold not_char at 1.
  intros [Hx Hs]%andb_true_iff. apply negb_true_iff in Hx.
  now rewrite Hx, (IH Hs).
Qed.

End ReplaceSplitFacts.

(* ===================================================================== *)
(** * The cleanup of a domain name *)
(* ===================================================================== *)

Section Cleanup.

(** A cleaned domain has no [/], no [:] and no upper-case character. *)
Lemma clean_domain_chars (d : string) :
  all_chars (not_char slash) (clean_domain d) = true
  /\ all_chars (not_char colon) (clean_domain d) = true
  /\ all_chars lower_fixed (clean_domain d) = true.
Proof.
  unfold clean_domain. repeat split.
  - apply all_chars_split_hd, split_hd_no_sep.
  - apply split_hd_no_sep.
  - do 2 apply all_chars_split_hd.
    do 2 (apply all_chars_replace; [discriminate | reflexivity |]).
    apply lower_all_fixed.
Qed.

(** On a text without [/], [:] and upper-case characters the cleanup only
    trims. *)
Lemma clean_domain_of_plain (x : string) :
  all_chars (not_char slash) x = true ->
  all_chars (not_char colon) x = true ->
  all_chars lower_fixed x = true ->
  clean_domain x = strip x.
Proof.
  intros Hs Hc Hl. unfold clean_domain.
  rewrite lower_of_fixed by now apply all_chars_strip.
  rewrite (replace_absent (not_char colon) "http://")
    by (reflexivity || now apply all_chars_strip).
  rewrite (replace_absent (not_char colon) "https://")
    by (reflexivity || now apply all_chars_strip).
  rewrite (split_absent slash) by now apply all_chars_strip.
  simpl hd.
  rewrite (split_absent colon) by now apply all_chars_strip.
  reflexivity.
Qed.

Lemma clean_domain_twice (d : string) :
  clean_domain (clean_domain d) = strip (clean_domain d).
Proof.
  destruct (clean_domain_chars d) as (Hs & Hc & Hl).
  now apply clean_domain_of_plain.
Qed.

End Cleanup.

(* ===================================================================== *)
(** * The parsing of the resolver's output *)
(* ===================================================================== *)

Section Parsing.

Implicit Types (fields : gmap string field_value) (line k v : string).

Lemma parse_line_store fields line :
  parse_line fields line =
  match field_of_line line with
  | Some (k, v) => store fields k v
  | None => fields
  end.
Proof.
  unfold parse_line, field_of_line, store.
  destruct (contains ":" (strip line) && negb (startswith "%" (strip line))
            && negb (startswith "#" (strip line))); [|reflexivity].
  destruct (split1 colon (strip line)) as [|key [|value [|? ?]]];
    try reflexivity.
  destruct (nonempty (strip value)
            && nonempty (replace " " "_" (lower (strip key))));
    reflexivity.
Qed.

Lemma store_lookup fields k v k' :
  store fields k v !! k' =
  if decide (k = k') then add_value (fields !! k) v else fields !! k'.
Proof.
  unfold store, add_value.
  destruct (fields !! k) as [[v0|vs]|] eqn:E;
    rewrite lookup_insert; destruct (decide (k = k')); reflexivity.
Qed.

(** The key of a field is lower-case, has no space and is not empty; its
    value is not empty. *)
Lemma field_of_line_ok line k v :
  field_of_line line = Some (k, v) ->
  lower k = k /\ contains " " k = false
  /\ nonempty k = true /\ nonempty v = true.
Proof.
  unfold field_of_line.
  destruct (contains ":" (strip line) && negb (startswith "%" (strip line))
            && negb (startswith "#" (strip line))); [|discriminate].
  destruct (split1 colon (strip line)) as [|key [|value [|? ?]]];
    try discriminate.
  destruct (nonempty (strip value)
            && nonempty (replace " " "_" (lower (strip key)))) eqn:E;
    [|discriminate].
  apply andb_true_iff in E as [Hv Hk].
  intros [= <- <-]. repeat split; try assumption.
  - apply lower_of_fixed, (all_chars_replace_go lower_fixed " " "_" 0);
      [reflexivity | apply lower_all_fixed].
  - rewrite contains_char.
    change (replace_go " " "_" 0 ?s) with (replace " " "_" s).
    now rewrite replace_space_no_space.
Qed.

(** The lines that the loop passes over. *)
Lemma field_of_line_skipped line :
  strip line = "" \/ startswith "%" (strip line) = true
  \/ startswith "#" (strip line) = true \/ contains ":" line = false ->
  field_of_line line = None.
Proof.
  unfold field_of_line. intros [H|[H|[H|H]]].
  - rewrite H. reflexivity.
  - rewrite H. now rewrite andb_false_r.
  - rewrite H. now rewrite andb_false_r.
  - assert (contains ":" (strip line) = false) as ->; [|reflexivity].
    rewrite contains_char, negb_false_iff in *.
    now apply all_chars_strip.
Qed.

Lemma value_nonempty_add (o : option field_value) v (fv : field_value) :
  (forall fv0, o = Some fv0 -> value_nonempty fv0 = true) ->
  nonempty v = true ->
  add_value o v = Some fv -> value_nonempty fv = true.
Proof.
  intros Ho Hv. destruct o as [[v0|vs]|]; simpl; intros [= <-].
  - specialize (Ho _ eq_refl). simpl in *. now rewrite Ho, Hv.
  - specialize (Ho _ eq_refl). simpl in Ho.
    destruct vs as [|x vs]; [discriminate|].
    change (forallb nonempty ((x :: vs) ++ [v]) = true).
    rewrite forallb_app, Ho. simpl. now rewrite Hv.
  - exact Hv.
Qed.

Lemma parse_line_ok fields line :
  fields_ok fields -> fields_ok (parse_line fields line).
Proof.
  intros Hok. rewrite parse_line_store.
  destruct (field_of_line line) as [[k v]|] eqn:E; [|exact Hok].
  destruct (field_of_line_ok _ _ _ E) as (Hl & Hs & _ & Hv).
  intros k' fv. rewrite store_lookup.
  destruct (decide (k = k')) as [<-|]; [|apply Hok].
  intros Hadd. repeat split; try assumption.
  apply (value_nonempty_add (fields !! k) v); [|assumption..].
  intros fv0 H0. now apply (Hok k).
Qed.

Lemma fold_parse_line_ok (lines : list string) fields :
  fields_ok fields -> fields_ok (fold_left parse_line lines fields).
Proof.
  revert fields. induction lines as [|l lines IH]; intros fields Hok;
    [exact Hok|].
  simpl. now apply IH, parse_line_ok.
Qed.

Lemma parse_lines_ok (lines : list string) : fields_ok (parse_lines lines).
Proof. apply fold_parse_line_ok. intros k fv. now rewrite lookup_empty. Qed.

(** A line that is passed over can be removed from the text. *)
Lemma parse_lines_skip (pre post : list string) line :
  field_of_line line = None ->
  parse_lines (pre ++ line :: post) = parse_lines (pre ++ post).
Proof.
  intros H. unfold parse_lines. rewrite !fold_left_app. simpl.
  now rewrite parse_line_store, H.
Qed.

(** The entry of a key is built from the values of that key alone, in
    the order of the lines. *)
Lemma fold_parse_line_lookup (lines : list string) fields k :
  fold_left parse_line lines fields !! k
  = fold_left add_value (values_of k lines) (fields !! k).
Proof.
  revert fields. induction lines as [|l lines IH]; intros fields;
    [reflexivity|].
  simpl. rewrite IH, parse_line_store. unfold values_of at 2.
  cbn [omap list_omap]. fold (values_of k lines).
  destruct (field_of_line l) as [[k' v]|]; [|reflexivity].
  rewrite store_lookup.
  destruct (decide (k' = k)) as [->|]; reflexivity.
Qed.

Lemma parse_lines_lookup (lines : list string) k :
  parse_lines lines !! k = fold_left add_value (values_of k lines) None.
Proof.
  unfold parse_lines. now rewrite fold_parse_line_lookup, lookup_empty.
Qed.

End Parsing.

(* ===================================================================== *)
(** * The single lookup *)
(* ===================================================================== *)

Section SingleLookup.

Lemma run_whois_command_query (q : string) (timeout : Z) (e : env) :
  query (run_whois_command q timeout e) = q.
Proof.
  unfold run_whois_command.
  destruct (run e) as [msg| |rc out err]; try reflexivity.
  destruct (negb (rc =? 0)%Z); reflexivity.
Qed.

(** The resolver is queried with the cleaned domain. *)
Lemma whois_domain_query (d : string) (e : env) :
  query (whois_domain d e) = clean_domain d.
Proof.
  unfold whois_domain.
  destruct (error (run_whois_command (clean_domain d) 10 e));
    apply run_whois_command_query.
Qed.

Lemma whois_domain_error (d : string) (e : env) :
  error (whois_domain d e) = error (run_whois_command (clean_domain d) 10 e).
Proof.
  unfold whois_domain.
  destruct (error (run_whois_command (clean_domain d) 10 e)) eqn:E;
    [exact E | reflexivity].
Qed.

Lemma truthy_py_or (x y : option field_value) :
  truthy (py_or x y) = truthy x || truthy y.
Proof. unfold py_or. now destruct (truthy x) eqn:E. Qed.

(** A result is counted as registered only when it has no [error]. *)
Lemma whois_domain_registered_no_error (d : string) (e : env) :
  default false (is_registered (whois_domain d e)) = true ->
  error (whois_domain d e) = None.
Proof.
  rewrite whois_domain_error. unfold whois_domain.
  destruct (error (run_whois_command (clean_domain d) 10 e)) eqn:E;
    [|reflexivity].
  unfold run_whois_command in *.
  destruct (run e) as [msg| |rc out err]; try (intros H; discriminate H).
  destruct (negb (rc =? 0)%Z); [intros H; discriminate H | discriminate E].
Qed.

End SingleLookup.

(* ===================================================================== *)
(** * The bulk lookup *)
(* ===================================================================== *)

Section BulkLookup.

Local Open Scope list_scope.

Variable world : nat -> task_run.

Lemma gather_snoc (ds : list string) (d : string) :
  gather world (ds ++ [d])
  = gather world ds ++ [lookup_single d (world (length ds))].
Proof.
  unfold gather. rewrite imap_app. simpl. now rewrite Nat.add_0_r.
Qed.

(** The dictionary of results after one more domain. *)
Lemma results_snoc (ds : list string) (d clock : string) :
  results (whois_domains (ds ++ [d]) world clock) =
  match world (length ds) with
  | TaskRaises => results (whois_domains ds world clock)
  | TaskRuns e =>
      <[d := whois_domain d e]> (results (whois_domains ds world clock))
  end.
Proof.
  unfold whois_domains. cbn [results].
  rewrite gather_snoc, fold_left_app. simpl.
  destruct (world (length ds)); reflexivity.
Qed.

(** A task that returned leaves an entry under the string it was given. *)
Lemma results_has_input (ds : list string) (clock : string) :
  forall i d e,
    ds !! i = Some d -> world i = TaskRuns e ->
    exists j e',
      ds !! j = Some d /\ world j = TaskRuns e'
      /\ results (whois_domains ds world clock) !! d
         = Some (whois_domain d e').
Proof.
  induction ds as [|x ds IH] using rev_ind; intros i d e Hi Hw;
    [discriminate|].
  rewrite results_snoc.
  assert (Hlast : forall e0, world (length ds) = TaskRuns e0 -> x = d ->
            exists j e', (ds ++ [x]) !! j = Some d /\ world j = TaskRuns e'
              /\ <[x := whois_domain x e0]>
                   (results (whois_domains ds world clock)) !! d
                 = Some (whois_domain d e')).
  { intros e0 H0 ->. exists (length ds), e0. repeat split; [|exact H0|].
    - now rewrite lookup_app_r, Nat.sub_diag by lia.
    - apply lookup_insert_eq. }
  destruct (decide (i < length ds)) as [Hlt|Hge].
  - rewrite lookup_app_l in Hi by exact Hlt.
    destruct (IH _ _ _ Hi Hw) as (j & e' & Hj & Hwj & Hr).
    destruct (world (length ds)) as [|e0] eqn:E.
    + exists j, e'. repeat split; try assumption.
      rewrite lookup_app_l; [exact Hj|]. now apply lookup_lt_Some in Hj.
    + destruct (decide (x = d)) as [Hx|Hx]; [now apply (Hlast e0)|].
      exists j, e'. repeat split; try assumption.
      * rewrite lookup_app_l; [exact Hj|]. now apply lookup_lt_Some in Hj.
      * now rewrite lookup_insert_ne.
  - assert (i = length ds) as ->.
    { apply lookup_lt_Some in Hi. rewrite length_app in Hi.
      simpl in Hi. lia. }
    rewrite lookup_app_r, Nat.sub_diag in Hi by lia.
    injection Hi as ->. rewrite Hw. now apply (Hlast e).
Qed.

(** When the same string is not given again later, the entry is the
    result of that very task. *)
Lemma results_last_input (ds : list string) (clock : string) :
  forall i d e,
    ds !! i = Some d -> world i = TaskRuns e ->
    (forall j, i < j -> ds !! j <> Some d) ->
    results (whois_domains ds world clock) !! d = Some (whois_domain d e).
Proof.
  induction ds as [|x ds IH] using rev_ind; intros i d e Hi Hw Hlater;
    [discriminate|].
  rewrite results_snoc.
  destruct (decide (i < length ds)) as [Hlt|Hge].
  - rewrite lookup_app_l in Hi by exact Hlt.
    assert (x <> d) as Hx.
    { intros ->. apply (Hlater (length ds) Hlt).
      now rewrite lookup_app_r, Nat.sub_diag by lia. }
    assert (results (whois_domains ds world clock) !! d
            = Some (whois_domain d e)) as Hr.
    { apply (IH i); try assumption.
      intros j Hj Hd. apply (Hlater j Hj).
      rewrite lookup_app_l; [exact Hd|]. now apply lookup_lt_Some in Hd. }
    destruct (world (length ds)); [exact Hr|].
    now rewrite lookup_insert_ne.
  - assert (i = length ds) as ->.
    { apply lookup_lt_Some in Hi. rewrite length_app in Hi.
      simpl in Hi. lia. }
    rewrite lookup_app_r, Nat.sub_diag in Hi by lia.
    injection Hi as ->. rewrite Hw. apply lookup_insert_eq.
Qed.

(** Every key of the dictionary is a string of the input list, and its
    entry is the result of a lookup of that string. *)
Lemma results_key_is_input (ds : list string) (clock k : string)
  (r : QueryResult) :
  results (whois_domains ds world clock) !! k = Some r ->
  exists j e, ds !! j = Some k /\ world j = TaskRuns e
              /\ r = whois_domain k e.
Proof.
  revert r. induction ds as [|x ds IH] using rev_ind; intros r.
  - unfold whois_domains. simpl. now rewrite lookup_empty.
  - rewrite results_snoc.
    assert (Hold : results (whois_domains ds world clock) !! k = Some r ->
              exists j e, (ds ++ [x]) !! j = Some k /\ world j = TaskRuns e
                          /\ r = whois_domain k e).
    { intros H. destruct (IH _ H) as (j & e & Hj & Hw & ->).
      exists j, e. repeat split; try assumption.
      rewrite lookup_app_l; [exact Hj|]. now apply lookup_lt_Some in Hj. }
    destruct (world (length ds)) as [|e0] eqn:E; [exact Hold|].
    rewrite lookup_insert. destruct (decide (x = k)) as [->|]; [|exact Hold].
    intros [= <-]. exists (length ds), e0. repeat split; [|exact E].
    now rewrite lookup_app_r, Nat.sub_diag by lia.
Qed.

(** The counters of the loop. *)
Lemma counters_bounds (ds : list string) (clock : string) :
  let s := summary (whois_domains ds world clock) in
  (0 <= registered_domains s /\ 0 <= errors s
   /\ registered_domains s + errors s <= total_domains s)%Z.
Proof.
  unfold whois_domains. cbn [summary registered_domains errors total_domains].
  induction ds as [|x ds IH] using rev_ind; [simpl; lia|].
  rewrite gather_snoc, fold_left_app, length_app. simpl.
  set (a := fold_left process_result (gather world ds) acc0) in *.
  destruct (world (length ds)) as [|e]; simpl; [lia|].
  pose proof (whois_domain_registered_no_error x e) as Hreg.
  destruct (default false (is_registered (whois_domain x e))).
  - rewrite (Hreg eq_refl). simpl. lia.
  - destruct (bool_decide (is_Some (error (whois_domain x e)))); lia.
Qed.

End BulkLookup.

(* ===================================================================== *)
(** * What trimming removes *)
(* ===================================================================== *)

Section Trimming.

Lemma lstrip_spec (s : string) :
  exists a, s = a +:+ lstrip s /\ all_chars is_space a = true.
Proof.
  induction s as [|c s (a & Ha & Hsp)]; [now exists ""|].
  simpl. destruct (is_space c) eqn:Hc.
  - exists (String c a). rewrite append_cons, <- Ha. simpl.
    now rewrite Hc, Hsp.
  - now exists "".
Qed.

Lemma rstrip_spec (s : string) :
  exists b, s = rstrip s +:+ b /\ all_chars is_space b = true.
Proof.
  induction s as [|c s (b & Hb & Hsp)]; [now exists ""|].
  simpl. destruct (rstrip s) as [|y r].
  - rewrite append_nil_l in Hb. subst b.
    destruct (is_space c) eqn:Hc.
    + exists (String c s). simpl. now rewrite Hc, Hsp.
    + now exists s.
  - exists b. split; [|exact Hsp]. rewrite append_cons. now f_equal.
Qed.

(** [strip] removes a run of white space at each end and nothing else. *)
Lemma strip_spec (s : string) :
  exists a b, s = a +:+ strip s +:+ b
              /\ all_chars is_space a = true /\ all_chars is_space b = true.
Proof.
  destruct (lstrip_spec s) as (a & Ha & Hsa).
  destruct (rstrip_spec (lstrip s)) as (b & Hb & Hsb).
  exists a, b. unfold strip. now rewrite <- Hb.
Qed.

(** What [rstrip] leaves does not end with white space. *)
Lemma rstrip_last (s t : string) (c : ascii) :
  rstrip s = t +:+ String c "" -> is_space c = false.
Proof.
  revert t. induction s as [|x s IH]; intros t; simpl.
  - destruct t; discriminate.
  - destruct (rstrip s) as [|y r] eqn:E.
    + destruct (is_space x) eqn:Hx.
      * destruct t; discriminate.
      * destruct t as [|z [|? ?]]; [|discriminate..].
        now intros [= <-].
    + destruct t as [|z t]; [discriminate|].
      rewrite append_cons. intros [= _ H]. now apply (IH t).
Qed.

Lemma strip_last (s t : string) (c : ascii) :
  strip s = t +:+ String c "" -> is_space c = false.
Proof. apply rstrip_last. Qed.

Lemma strip_first (s t : string) (c : ascii) :
  strip s = String c t -> is_space c = false.
Proof.
  destruct (strip_head s) as [->|(c' & t' & -> & Hc)]; [discriminate|].
  now intros [= <- _].
Qed.

End Trimming.

(* ===================================================================== *)
(** * The properties of the specification *)
(* ===================================================================== *)

Section Properties.

Local Open Scope list_scope.

(** C1.  For every bulk lookup, over any list of domain strings and
    whatever the tasks do, the summary satisfies
    [registered_domains + available_domains + errors = total_domains],
    and [total_domains] is the length of the input list. *)
Theorem summary_counts_add_up (domains : list string)
  (world : nat -> task_run) (clock : string) :
  let s := summary (whois_domains domains world clock) in
  (registered_domains s + available_domains s + errors s
   = total_domains s)%Z
  /\ total_domains s = Z.of_nat (length domains).
Proof.
  unfold whois_domains.
  cbn [summary registered_domains available_domains errors total_domains].
  split; [lia | reflexivity].
Qed.

(** C2.  For every execution of a single query (exception, timeout,
    non-zero exit or success) the result has exactly one of the two
    shapes: an [error] and neither [raw_output] nor [parsed_fields], or
    no [error] and both [raw_output] and [parsed_fields]. *)
Theorem query_result_one_shape (q : string) (timeout : Z) (e : env) :
  let r := run_whois_command q timeout e in
  (is_Some (error r) /\ raw_output r = None /\ parsed_fields r = None)
  \/ (error r = None /\ is_Some (raw_output r)
      /\ is_Some (parsed_fields r)).
Proof.
  unfold run_whois_command.
  destruct (run e) as [msg| |rc out err]; cbn zeta.
  - left. simpl. eauto.
  - left. simpl. eauto.
  - destruct (negb (rc =? 0)%Z).
    + left. simpl. eauto.
    + right. simpl. eauto.
Qed.

(** C3, as amended.  In a bulk lookup every task that returned leaves an
    entry of [results] under the string it was given, the raw input; the
    entry is the result of a lookup of that string, and of this very task
    when the same string is not given again later in the list.  The
    cleaned domain is the [query] of the result. *)
Theorem results_keyed_by_input (domains : list string)
  (world : nat -> task_run) (clock : string) (i : nat) (d : string)
  (e : env) :
  domains !! i = Some d -> world i = TaskRuns e ->
  (exists j e', domains !! j = Some d /\ world j = TaskRuns e'
      /\ results (whois_domains domains world clock) !! d
         = Some (whois_domain d e'))
  /\ ((forall j, i < j -> domains !! j <> Some d) ->
      results (whois_domains domains world clock) !! d
      = Some (whois_domain d e))
  /\ query (whois_domain d e) = clean_domain d.
Proof.
  intros Hi Hw. split; [|split].
  - now apply (results_has_input world domains clock i d e).
  - intros Hlater. now apply (results_last_input world domains clock i).
  - apply whois_domain_query.
Qed.

Lemma results_keyed_by_input_witness :
  results (whois_domains ["Example.COM"] (fun _ => TaskRuns (prints ""))
             "") !! "Example.COM"
  = Some (whois_domain "Example.COM" (prints ""))
  /\ query (whois_domain "Example.COM" (prints "")) = "example.com".
Proof.
  destruct (results_keyed_by_input ["Example.COM"]
              (fun _ => TaskRuns (prints "")) "" 0 "Example.COM"
              (prints "") eq_refl eq_refl) as (_ & Hlast & Hq).
  split.
  - apply Hlast. intros [|j] Hj; [lia | discriminate].
  - rewrite Hq. reflexivity.
Defined.

(** C3, as stated, fails: the lookup of [Example.COM] returns, its
    cleaned domain is [example.com], and [results] has no entry under
    [example.com]; the entry is under [Example.COM]. *)
Lemma results_not_keyed_by_cleaned :
  let r := whois_domains ["Example.COM"] (fun _ => TaskRuns (prints ""))
             "" in
  clean_domain "Example.COM" = "example.com"
  /\ results r !! clean_domain "Example.COM" = None
  /\ results r !! "Example.COM"
     = Some (whois_domain "Example.COM" (prints "")).
Proof. vm_compute. repeat split. Qed.

(** C4.  In the bulk lookup of [a.com], [b.com], [c.com] where the task
    of [b.com] raises and the two others return results without error,
    [results] has the entries of [a.com] and [c.com] only, each the
    result of its own lookup, [errors] is 1 and [total_domains] is 3. *)
Theorem crashed_task_is_isolated (world : nat -> task_run)
  (clock : string) (ea ec : env) :
  world 0 = TaskRuns ea -> world 1 = TaskRaises -> world 2 = TaskRuns ec ->
  error (whois_domain "a.com" ea) = None ->
  error (whois_domain "c.com" ec) = None ->
  let r := whois_domains ["a.com"; "b.com"; "c.com"] world clock in
  dom (results r) = {[ "a.com"; "c.com" ]}
  /\ results r !! "a.com" = Some (whois_domain "a.com" ea)
  /\ results r !! "b.com" = None
  /\ results r !! "c.com" = Some (whois_domain "c.com" ec)
  /\ errors (summary r) = 1%Z
  /\ total_domains (summary r) = 3%Z.
Proof.
  intros H0 H1 H2 Ha Hc.
  unfold whois_domains, gather.
  cbn [imap fold_left length Z.of_nat results summary errors total_domains].
  cbn [compose]. rewrite H0, H1, H2.
  cbn [lookup_single process_result acc0 domain_results error_count].
  rewrite Ha, Hc.
  split_and!.
  - rewrite !dom_insert_L, dom_empty_L. set_solver.
  - rewrite lookup_insert_ne by discriminate. apply lookup_insert_eq.
  - rewrite !lookup_insert_ne by discriminate. apply lookup_empty.
  - apply lookup_insert_eq.
  - reflexivity.
  - reflexivity.
Qed.

Lemma crashed_task_is_isolated_witness :
  let world := fun i : nat =>
    match i with 1 => TaskRaises | _ => TaskRuns (prints "Registrar: X") end in
  let r := whois_domains ["a.com"; "b.com"; "c.com"] world "" in
  results r !! "b.com" = None
  /\ errors (summary r) = 1%Z /\ total_domains (summary r) = 3%Z.
Proof.
  intros world r.
  destruct (crashed_task_is_isolated world "" (prints "Registrar: X")
              (prints "Registrar: X") eq_refl eq_refl eq_refl
              eq_refl eq_refl) as (_ & _ & Hb & _ & He & Ht).
  exact (conj Hb (conj He Ht)).
Defined.

(** C5.  For every domain lookup that produced raw output,
    [is_registered] is false exactly when the lower-cased raw text
    contains one of the six phrases, and true otherwise ([contains] is
    the substring test, see [contains_spec]).  In particular the text
    [No match for domain "NOPE123XYZ.COM".] gives false. *)
Theorem registration_status_by_phrases (domain : string) (e : env)
  (raw : string) :
  raw_output (whois_domain domain e) = Some raw ->
  is_registered (whois_domain domain e)
  = Some (negb (existsb (fun phrase => contains phrase (lower raw))
                  [ "no match"; "not found"; "no data found";
                    "status: available"; "no matching record";
                    "not registered" ]))
  /\ is_registered (whois_domain domain (prints no_match_text))
     = Some false.
Proof.
  intros Hraw. split; [|reflexivity].
  revert Hraw. unfold whois_domain, run_whois_command.
  destruct (run e) as [msg| |rc out err]; try discriminate.
  destruct (negb (rc =? 0)%Z); [discriminate|].
  cbn [raw_output is_registered error default]. intros [= ->].
  unfold unavailable_phrases. now destruct (existsb _ _).
Qed.

Lemma registration_status_by_phrases_witness :
  is_registered (whois_domain "nope123xyz.com" (prints no_match_text))
  = Some false
  /\ is_registered (whois_domain "example.com" (prints sample_text))
     = Some true.
Proof.
  split.
  - exact (proj2 (registration_status_by_phrases "nope123xyz.com"
                    (prints no_match_text) no_match_text eq_refl)).
  - exact (proj1 (registration_status_by_phrases "example.com"
                    (prints sample_text) sample_text eq_refl)).
Defined.

(** C6.  For every raw text, every key of the parsed mapping is
    lower-case and has no space, and no key is mapped to an empty value
    (a stored string is non-empty, a stored list is non-empty and made of
    non-empty strings); a line that, once trimmed, is empty or starts
    with [%] or [#], or a line without [:], contributes nothing: the
    mapping is that of the text without the line. *)
Theorem parsed_fields_normalised (raw : string) :
  (forall k fv, parse_fields raw !! k = Some fv ->
     lower k = k /\ contains " " k = false /\ value_nonempty fv = true)
  /\ (forall pre line post,
        split newline raw = pre ++ line :: post ->
        strip line = "" \/ startswith "%" (strip line) = true
        \/ startswith "#" (strip line) = true
        \/ contains ":" line = false ->
        parse_fields raw = parse_lines (pre ++ post)).
Proof.
  split.
  - apply parse_lines_ok.
  - intros pre line post Hsplit Hskip. unfold parse_fields.
    rewrite Hsplit. now apply parse_lines_skip, field_of_line_skipped.
Qed.

Lemma parsed_fields_normalised_witness :
  (lower "name_server" = "name_server"
   /\ contains " " "name_server" = false
   /\ value_nonempty
        (FList ["ns1.example.com"; "ns2.example.com"; "ns3.example.com"])
      = true)
  /\ parse_fields sample_text
     = parse_lines [ "Name Server: ns1.example.com";
                     "Registrar: Example Inc";
                     "name server: ns2.example.com";
                     "NAME SERVER:  ns3.example.com " ].
Proof.
  destruct (parsed_fields_normalised sample_text) as [Hkeys Hskip].
  split.
  - apply (Hkeys "name_server"). vm_compute. reflexivity.
  - apply (Hskip [] "% banner: ignored").
    + vm_compute. reflexivity.
    + right. left. vm_compute. reflexivity.
Defined.

(** C7.  For every raw text whose lines give the key [k] three times,
    with the non-empty values [a], [b], [c] in that order, the parsed
    mapping has the sequence [[a; b; c]] under [k]; a key given exactly
    once, with the value [a], is mapped to the plain string [a]. *)
Theorem repeated_field_is_sequence (raw k a b c : string) :
  (values_of k (split newline raw) = [a; b; c] ->
   parse_fields raw !! k = Some (FList [a; b; c]))
  /\ (values_of k (split newline raw) = [a] ->
      parse_fields raw !! k = Some (FStr a)).
Proof.
  unfold parse_fields. rewrite parse_lines_lookup.
  split; intros ->; reflexivity.
Qed.

Lemma repeated_field_is_sequence_witness :
  parse_fields sample_text !! "name_server"
  = Some (FList ["ns1.example.com"; "ns2.example.com"; "ns3.example.com"])
  /\ parse_fields sample_text !! "registrar" = Some (FStr "Example Inc").
Proof.
  split.
  - apply (repeated_field_is_sequence sample_text "name_server"
             "ns1.example.com" "ns2.example.com" "ns3.example.com").
    vm_compute. reflexivity.
  - apply (repeated_field_is_sequence sample_text "registrar"
             "Example Inc" "" "").
    vm_compute. reflexivity.
Defined.

(** C8, as amended.  For every string [d], cleaning the cleaned domain
    again only trims it: [clean (clean d) = strip (clean d)]; so the
    cleanup is idempotent on every [d] whose cleaned form has no white
    space at either end, and from the second application on:
    [clean (clean (clean d)) = clean (clean d)]. *)
Theorem clean_domain_idempotent_after_trim (d : string) :
  clean_domain (clean_domain d) = strip (clean_domain d)
  /\ clean_domain (clean_domain (clean_domain d))
     = clean_domain (clean_domain d).
Proof.
  split; [apply clean_domain_twice|].
  rewrite (clean_domain_twice (clean_domain d)), clean_domain_twice.
  apply strip_idem.
Qed.

(** C8, as stated, fails: the path of [a.com /x] is cut after the
    trimming, which leaves [a.com] with a space at its end; cleaning that
    again removes the space. *)
Lemma clean_domain_not_idempotent :
  clean_domain "a.com /x" = "a.com "
  /\ clean_domain (clean_domain "a.com /x") = "a.com"
  /\ clean_domain (clean_domain "a.com /x") <> clean_domain "a.com /x".
Proof. vm_compute. repeat split. discriminate. Qed.

(** C9.  For every execution in which the resolver exits with a non-zero
    status, the result is a failure whose message is
    [WHOIS command failed: ] followed by the trimmed error stream, or by
    [Unknown error] when the trimmed error stream is empty. *)
Theorem nonzero_exit_reports_stderr (q : string) (timeout rc : Z)
  (out err clock : string) :
  rc <> 0%Z ->
  let r := run_whois_command q timeout
             {| run := Completes rc out err; now := clock |} in
  error r
  = Some ("WHOIS command failed: " +:+
          (if decide (strip err = "") then "Unknown error" else strip err))
  /\ raw_output r = None /\ parsed_fields r = None.
Proof.
  intros Hrc. unfold run_whois_command. cbn [run].
  apply Z.eqb_neq in Hrc. rewrite Hrc. cbn [negb].
  split_and!; try reflexivity.
  cbn [error error_result]. do 2 f_equal.
  destruct (strip err); [reflexivity|].
  now destruct (decide _).
Qed.

Lemma nonzero_exit_reports_stderr_witness :
  error (run_whois_command "example.com" 10
           {| run := Completes 2 "" "  connect: refused "; now := "" |})
  = Some "WHOIS command failed: connect: refused"
  /\ error (run_whois_command "example.com" 10
              {| run := Completes 1 "" "  "; now := "" |})
     = Some "WHOIS command failed: Unknown error".
Proof.
  split.
  - apply (nonzero_exit_reports_stderr "example.com" 10 2 ""
             "  connect: refused " ""). discriminate.
  - apply (nonzero_exit_reports_stderr "example.com" 10 1 "" "  " "").
    discriminate.
Defined.

(** C10.  For every domain lookup whose result has no [error], the
    result has an [is_registered] boolean and an [analysis] whose
    [registered] entry equals it; the three other entries of [analysis]
    say whether the parsed fields have a registrar, a creation date and
    an expiry date. *)
Theorem analysis_registered_is_status (domain : string) (e : env) :
  error (whois_domain domain e) = None ->
  exists b a fields,
    is_registered (whois_domain domain e) = Some b
    /\ analysis (whois_domain domain e) = Some a
    /\ registered a = b
    /\ parsed_fields (whois_domain domain e) = Some fields
    /\ has_registrar a = truthy (fields !! "registrar")
    /\ has_creation_date a
       = (truthy (fields !! "creation_date") || truthy (fields !! "created"))
    /\ has_expiry_date a
       = (truthy (fields !! "expiry_date") || truthy (fields !! "expires")).
Proof.
  unfold whois_domain, run_whois_command.
  destruct (run e) as [msg| |rc out err]; try discriminate.
  destruct (negb (rc =? 0)%Z); [discriminate|].
  intros _. cbn -[py_or existsb].
  eexists _, _, _. split_and!; try reflexivity; apply truthy_py_or.
Qed.

Lemma analysis_registered_is_status_witness :
  exists a,
    analysis (whois_domain "example.com" (prints sample_text)) = Some a
    /\ is_registered (whois_domain "example.com" (prints sample_text))
       = Some (registered a)
    /\ has_registrar a = true.
Proof.
  destruct (analysis_registered_is_status "example.com"
              (prints sample_text) eq_refl)
    as (b & a & fields & Hb & Ha & Hreg & [= <-] & Hr & _).
  exists a. split; [exact Ha|]. split; [now rewrite Hreg|].
  rewrite Hr. vm_compute. reflexivity.
Defined.

End Properties.

(* ===================================================================== *)
(** * More facts about trimming and lower-casing *)
(* ===================================================================== *)

Section TrimLower.

Lemma is_space_lower_char (c : ascii) :
  is_space (lower_char c) = is_space c.
Proof. destruct c as [[] [] [] [] [] [] [] []]; reflexivity. Qed.

Lemma lower_app (a b : string) : lower (a +:+ b) = lower a +:+ lower b.
Proof.
  induction a as [|x a IH]; [reflexivity|].
  rewrite append_cons. simpl. rewrite append_cons. now f_equal.
Qed.

Lemma nonempty_lower (s : string) : nonempty (lower s) = nonempty s.
Proof. now destruct s. Qed.

Lemma lstrip_lower (s : string) : lstrip (lower s) = lower (lstrip s).
Proof.
  induction s as [|c s IH]; [reflexivity|].
  simpl. rewrite is_space_lower_char. now destruct (is_space c).
Qed.

Lemma rstrip_lower (s : string) : rstrip (lower s) = lower (rstrip s).
Proof.
  induction s as [|c s IH]; [reflexivity|].
  simpl. rewrite IH, is_space_lower_char.
  destruct (rstrip s); simpl; [|reflexivity].
  now destruct (is_space c).
Qed.

Lemma strip_lower (s : string) : strip (lower s) = lower (strip s).
Proof. unfold strip. now rewrite lstrip_lower, rstrip_lower. Qed.

Lemma lstrip_idem (s : string) : lstrip (lstrip s) = lstrip s.
Proof.
  induction s as [|c s IH]; [reflexivity|].
  simpl. destruct (is_space c) eqn:E; [exact IH|].
  simpl. now rewrite E.
Qed.

Lemma lstrip_all_space (w : string) :
  all_chars is_space w = true -> lstrip w = "".
Proof.
  induction w as [|c w IH]; [reflexivity|].
  simpl. intros [Hc Hw]%andb_true_iff. rewrite Hc. auto.
Qed.

Lemma rstrip_all_space (w : string) :
  all_chars is_space w = true -> rstrip w = "".
Proof.
  induction w as [|c w IH]; [reflexivity|].
  simpl. intros [Hc Hw]%andb_true_iff. now rewrite (IH Hw), Hc.
Qed.

(** White space before a text is removed by [lstrip]. *)
Lemma lstrip_space_app (w s : string) :
  all_chars is_space w = true -> lstrip (w +:+ s) = lstrip s.
Proof.
  induction w as [|c w IH]; [reflexivity|].
  rewrite append_cons. simpl. intros [Hc Hw]%andb_true_iff.
  rewrite Hc. auto.
Qed.

(** White space after a text is removed by [rstrip]. *)
Lemma rstrip_app_space (s w : string) :
  all_chars is_space w = true -> rstrip (s +:+ w) = rstrip s.
Proof.
  intros Hw. induction s as [|c s IH].
  - rewrite append_nil_l. now apply rstrip_all_space.
  - rewrite append_cons. simpl. now rewrite IH.
Qed.

(** [lstrip] stops at a character that is not white space. *)
Lemma lstrip_app_stop (a : string) (x : ascii) (b : string) :
  is_space x = false ->
  lstrip (a +:+ String x b) = lstrip a +:+ String x b.
Proof.
  intros Hx. induction a as [|c a IH].
  - rewrite append_nil_l. simpl. now rewrite Hx.
  - rewrite append_cons. simpl. destruct (is_space c); [exact IH|].
    now rewrite append_cons.
Qed.

(** [rstrip] stops at a character that is not white space. *)
Lemma rstrip_app_stop (a : string) (x : ascii) (b : string) :
  is_space x = false ->
  rstrip (a +:+ String x b) = a +:+ String x (rstrip b).
Proof.
  intros Hx. induction a as [|c a IH].
  - rewrite !append_nil_l. now apply rstrip_cons_nonspace.
  - rewrite !append_cons. simpl. rewrite IH.
    destruct a; reflexivity.
Qed.

Lemma rstrip_app_nonspace (a b : string) :
  all_chars not_space a = true -> rstrip (a +:+ b) = a +:+ rstrip b.
Proof.
  induction a as [|c a IH]; [reflexivity|].
  rewrite !append_cons. cbn [all_chars]. unfold not_space at 1.
  intros [Hc Ha]%andb_true_iff. apply negb_true_iff in Hc.
  now rewrite rstrip_cons_nonspace, IH.
Qed.

Lemma rstrip_lstrip_app_space (s w : string) :
  all_chars is_space w = true ->
  rstrip (lstrip (s +:+ w)) = rstrip (lstrip s).
Proof.
  intros Hw. induction s as [|c s IH].
  - rewrite append_nil_l. now rewrite (lstrip_all_space w Hw).
  - rewrite append_cons. simpl. destruct (is_space c); [exact IH|].
    rewrite <- append_cons. now apply rstrip_app_space.
Qed.

(** Trimming does not see the white space around a text. *)
Lemma strip_padding (w1 s w2 : string) :
  all_chars is_space w1 = true -> all_chars is_space w2 = true ->
  strip (w1 +:+ s +:+ w2) = strip s.
Proof.
  intros H1 H2. unfold strip. rewrite lstrip_space_app by exact H1.
  now apply rstrip_lstrip_app_space.
Qed.

Lemma strip_rstrip (s : string) : strip (rstrip s) = strip s.
Proof.
  destruct (rstrip_spec s) as (w & Hs & Hw).
  rewrite Hs at 2.
  symmetry. apply (strip_padding "" (rstrip s) w); [reflexivity | exact Hw].
Qed.

Lemma strip_lstrip (s : string) : strip (lstrip s) = strip s.
Proof. unfold strip. now rewrite lstrip_idem. Qed.

Lemma replace_space_nonempty (s : string) :
  nonempty (replace " " "_" s) = nonempty s.
Proof.
  change (replace " " "_" s) with (replace_go " " "_" 0 s).
  destruct s as [|c s]; [reflexivity|].
  cbn [replace_go]. now destruct (startswith " " (String c s)).
Qed.

End TrimLower.

(* ===================================================================== *)
(** * More about the parsing *)
(* ===================================================================== *)

Section ParsingMore.

Local Open Scope list_scope.

Lemma fold_add_value_list (vs l : list string) :
  fold_left add_value vs (Some (FList l)) = Some (FList (l ++ vs)).
Proof.
  revert l. induction vs as [|v vs IH]; intros l; simpl.
  - now rewrite app_nil_r.
  - rewrite IH. now rewrite <- app_assoc.
Qed.

Lemma fold_add_value_none (vs : list string) :
  fold_left add_value vs None = entry_of_values vs.
Proof.
  destruct vs as [|v1 [|v2 vs]]; try reflexivity.
  simpl. now rewrite fold_add_value_list.
Qed.

Lemma values_of_nonempty (k : string) (lines : list string) :
  Forall (fun v => nonempty v = true) (values_of k lines).
Proof.
  induction lines as [|l lines IH]; [constructor|].
  unfold values_of. cbn [omap list_omap]. fold (values_of k lines).
  destruct (field_of_line l) as [[k' v]|] eqn:E; [|exact IH].
  destruct (decide (k' = k)); [|exact IH].
  constructor; [|exact IH]. now apply field_of_line_ok in E.
Qed.

(** X1.  For every raw text and every key, the entry of the key in the
    parsed mapping is determined by the values that the lines give to
    this key, in their order: no entry without a value, the plain string
    for one value, and the list of all the values for two or more. *)
Theorem parse_fields_entry (raw k : string) :
  parse_fields raw !! k = entry_of_values (values_of k (split newline raw))
  /\ Forall (fun v => nonempty v = true)
            (values_of k (split newline raw)).
Proof.
  split; [|apply values_of_nonempty].
  unfold parse_fields. now rewrite parse_lines_lookup, fold_add_value_none.
Qed.

Lemma startswith_char_app (c x : ascii) (a b : string) :
  c <> x ->
  startswith (String c "") (a +:+ String x b) = startswith (String c "") a.
Proof.
  intros Hne. destruct a as [|y a].
  - rewrite append_nil_l, startswith_cons.
    apply Ascii.eqb_neq in Hne. now rewrite Hne.
  - rewrite append_cons, !startswith_cons, !startswith_nil. reflexivity.
Qed.

Lemma split1_app (c : ascii) (a b : string) :
  all_chars (not_char c) a = true -> split1 c (a +:+ String c b) = [a; b].
Proof.
  induction a as [|x a IH].
  - intros _. rewrite append_nil_l. simpl. now rewrite Ascii.eqb_refl.
  - rewrite append_cons. cbn [all_chars split1]. unfold not_char at 1.
    intros [Hx Ha]%andb_true_iff. apply negb_true_iff in Hx.
    now rewrite Hx, (IH Ha).
Qed.

Lemma contains_app_char (c : ascii) (a b : string) :
  contains (String c "") (a +:+ String c b) = true.
Proof. apply contains_spec. now exists a, b. Qed.

(** X2.  A line [k:v] whose part [k] has no colon is split at its first
    colon, whatever [v] contains.  It is passed over when [k], trimmed on
    the left, starts with [%] or [#], and when the trimmed [k] or the
    trimmed [v] is empty; otherwise it gives the trimmed [v] to the key
    obtained from the trimmed [k] by lower-casing and by replacing each
    space with an underscore. *)
Theorem field_of_line_first_colon (k v : string) :
  all_chars (not_char colon) k = true ->
  field_of_line (k +:+ ":" +:+ v) =
  if startswith "%" (lstrip k) || startswith "#" (lstrip k) then None
  else if nonempty (strip v) && nonempty (strip k)
       then Some (replace " " "_" (lower (strip k)), strip v)
       else None.
Proof.
  intros Hk. unfold field_of_line.
  assert (strip (k +:+ ":" +:+ v) = lstrip k +:+ String colon (rstrip v))
    as ->.
  { unfold strip. change (":" +:+ v) with (String colon v).
    rewrite lstrip_app_stop by reflexivity.
    now rewrite rstrip_app_stop by reflexivity. }
  rewrite contains_app_char, !startswith_char_app by discriminate.
  rewrite split1_app by now apply all_chars_lstrip.
  rewrite strip_lstrip, strip_rstrip.
  rewrite replace_space_nonempty, nonempty_lower.
  destruct (startswith "%" (lstrip k)); [reflexivity|].
  destruct (startswith "#" (lstrip k)); reflexivity.
Qed.

Lemma field_of_line_first_colon_witness :
  field_of_line (" Updated Date" +:+ ":" +:+ " 2024-01-02T03:04:05Z ")
  = Some ("updated_date", "2024-01-02T03:04:05Z").
Proof.
  rewrite (field_of_line_first_colon " Updated Date"
             " 2024-01-02T03:04:05Z " eq_refl).
  reflexivity.
Defined.

(** ** Line endings *)

Lemma field_of_line_padding (line w : string) :
  all_chars is_space w = true ->
  field_of_line (line +:+ w) = field_of_line line.
Proof.
  intros Hw. unfold field_of_line.
  assert (strip (line +:+ w) = strip line) as ->
    by exact (strip_padding "" line w eq_refl Hw).
  reflexivity.
Qed.

Lemma fold_parse_line_padded (ls ls' : list string)
  (m : gmap string field_value) :
  Forall2 (fun l l' => exists w, l' = l +:+ w /\ all_chars is_space w = true)
          ls ls' ->
  fold_left parse_line ls' m = fold_left parse_line ls m.
Proof.
  intros H. revert m. induction H as [|l l' ls ls' (w & -> & Hw) _ IH];
    intros m; [reflexivity|].
  simpl. rewrite IH, !parse_line_store.
  now rewrite field_of_line_padding.
Qed.

(** The lines of a text whose line feeds have become carriage return and
    line feed are the lines of the text, each with at most a carriage
    return at its end. *)
Lemma split_crlf (raw : string) :
  Forall2 (fun l l' => exists w, l' = l +:+ w /\ all_chars is_space w = true)
    (split newline raw)
    (split newline
       (replace (String newline "")
                (String carriage_return (String newline "")) raw)).
Proof.
  change (replace ?o ?n raw) with (replace_go o n 0 raw).
  induction raw as [|c raw IH].
  - repeat constructor. now exists "".
  - cbn [replace_go]. rewrite startswith_cons, startswith_nil, andb_true_r.
    cbn [String.length Nat.sub]. rewrite (eqb_sym newline c).
    cbn [split]. destruct (Ascii.eqb c newline) eqn:E.
    + rewrite !append_cons, append_nil_l. cbn [split].
      change (Ascii.eqb carriage_return newline) with false.
      cbn iota. rewrite Ascii.eqb_refl.
      constructor; [|exact IH]. now exists (String carriage_return "").
    + cbn [split]. rewrite E.
      destruct IH as [|h h' t t' (w & -> & Hw) Ht];
        [repeat constructor; now exists ""|].
      constructor; [|exact Ht]. exists w. now rewrite append_cons.
Qed.

(** X3.  Carriage returns at the ends of the lines do not matter: the
    text in which every line feed has become carriage return and line
    feed has the same parsed mapping. *)
Theorem parse_fields_crlf (raw : string) :
  parse_fields (replace (String newline "")
                        (String carriage_return (String newline "")) raw)
  = parse_fields raw.
Proof.
  unfold parse_fields, parse_lines.
  apply fold_parse_line_padded, split_crlf.
Qed.

End ParsingMore.

(* ===================================================================== *)
(** * More about the single lookup *)
(* ===================================================================== *)

Section SingleLookupMore.

Local Open Scope list_scope.

Lemma startswith_app_self (p t : string) : startswith p (p +:+ t) = true.
Proof. apply startswith_spec. now exists t. Qed.

(** X4.  The message of a failed query tells which failure it was:
    reading its first words ([Internal error: ] for an exception, else
    [WHOIS query timed out after ] for a timeout, else
    [WHOIS command failed: ] for a non-zero exit status) always gives
    the failure that happened. *)
Theorem error_message_tells_failure (q : string) (timeout : Z) (e : env)
  (msg : string) :
  error (run_whois_command q timeout e) = Some msg ->
  failure_kind msg
  = Some match run e with
         | Raises _ => 0
         | TimesOut => 1
         | Completes _ _ _ => 2
         end.
Proof.
  unfold run_whois_command.
  destruct (run e) as [m| |rc out err].
  - intros [= <-]. unfold failure_kind. now rewrite startswith_app_self.
  - intros [= <-]. unfold failure_kind.
    change (startswith "Internal error: " _) with false.
    cbn iota. now rewrite startswith_app_self.
  - destruct (negb (rc =? 0)%Z); [|discriminate].
    intros [= <-]. unfold failure_kind.
    change (startswith "Internal error: " _) with false.
    change (startswith "WHOIS query timed out after " _) with false.
    cbn iota. now rewrite startswith_app_self.
Qed.

Lemma error_message_tells_failure_witness :
  failure_kind "WHOIS query timed out after 10 seconds" = Some 1.
Proof.
  exact (error_message_tells_failure "example.com" 10
           {| run := TimesOut; now := "" |}
           "WHOIS query timed out after 10 seconds" eq_refl).
Defined.

(** X5.  A domain lookup either fails, and then it returns the result of
    the query as it is, without [is_registered] and without [analysis];
    or it succeeds, and then it adds [is_registered] and [analysis] to
    the result of the query and changes nothing else. *)
Theorem whois_domain_completes_result (domain : string) (e : env) :
  let r0 := run_whois_command (clean_domain domain) 10 e in
  let r := whois_domain domain e in
  (is_Some (error r) /\ r = r0
   /\ is_registered r = None /\ analysis r = None)
  \/ (error r = None /\ is_Some (is_registered r) /\ is_Some (analysis r)
      /\ query r = query r0 /\ timestamp r = timestamp r0
      /\ raw_output r = raw_output r0
      /\ parsed_fields r = parsed_fields r0).
Proof.
  unfold whois_domain, run_whois_command.
  destruct (run e) as [m| |rc out err]; cbn zeta.
  - left. simpl. eauto.
  - left. simpl. eauto.
  - destruct (negb (rc =? 0)%Z).
    + left. simpl. eauto.
    + right. cbn -[existsb py_or]. split_and!; eauto.
Qed.

Lemma truthy_entry (k raw : string) :
  truthy (parse_fields raw !! k) = has_field k raw.
Proof.
  unfold parse_fields, has_field.
  rewrite parse_lines_lookup, fold_add_value_none.
  pose proof (values_of_nonempty k (split newline raw)) as Hne.
  destruct (values_of k (split newline raw)) as [|v1 [|v2 vs]];
    try reflexivity.
  simpl. now apply Forall_cons_1 in Hne as [Hv _].
Qed.

(** X6.  For a domain lookup that produced raw output, [has_registrar]
    is true exactly when some line of the output gives the key
    [registrar]; [has_creation_date] when some line gives
    [creation_date] or [created]; [has_expiry_date] when some line gives
    [expiry_date] or [expires]. *)
Theorem analysis_tells_fields (domain : string) (e : env) (raw : string) :
  raw_output (whois_domain domain e) = Some raw ->
  exists a,
    analysis (whois_domain domain e) = Some a
    /\ has_registrar a = has_field "registrar" raw
    /\ has_creation_date a
       = (has_field "creation_date" raw || has_field "created" raw)
    /\ has_expiry_date a
       = (has_field "expiry_date" raw || has_field "expires" raw).
Proof.
  unfold whois_domain, run_whois_command.
  destruct (run e) as [m| |rc out err]; try discriminate.
  destruct (negb (rc =? 0)%Z); [discriminate|].
  cbn -[existsb py_or]. intros [= ->].
  eexists. split; [reflexivity|].
  cbn -[existsb py_or]. rewrite !truthy_py_or, !truthy_entry.
  split_and!; reflexivity.
Qed.

Lemma analysis_tells_fields_witness :
  exists a,
    analysis (whois_domain "example.com" (prints sample_text)) = Some a
    /\ has_registrar a = true /\ has_creation_date a = false.
Proof.
  destruct (analysis_tells_fields "example.com" (prints sample_text)
              sample_text eq_refl) as (a & Ha & Hr & Hc & _).
  exists a. split; [exact Ha|]. split.
  - rewrite Hr. vm_compute. reflexivity.
  - rewrite Hc. vm_compute. reflexivity.
Defined.

Lemma clean_domain_by_lower_strip (d d' : string) :
  lower (strip d) = lower (strip d') -> clean_domain d = clean_domain d'.
Proof. unfold clean_domain. now intros ->. Qed.

(** X7.  A domain lookup does not see the white space around its
    argument nor the case of its letters: two arguments that differ only
    in these give the same result. *)
Theorem whois_domain_ignores_case_and_padding (d d' w1 w2 : string)
  (e : env) :
  all_chars is_space w1 = true -> all_chars is_space w2 = true ->
  lower d = lower d' ->
  whois_domain (w1 +:+ d +:+ w2) e = whois_domain d' e.
Proof.
  intros H1 H2 Hl.
  assert (clean_domain (w1 +:+ d +:+ w2) = clean_domain d') as Hc.
  { apply clean_domain_by_lower_strip.
    rewrite strip_padding by assumption.
    now rewrite <- !strip_lower, Hl. }
  unfold whois_domain. now rewrite Hc.
Qed.

Lemma whois_domain_ignores_case_and_padding_witness :
  whois_domain ("  " +:+ "Example.COM" +:+ " ") (prints sample_text)
  = whois_domain "example.com" (prints sample_text).
Proof.
  apply (whois_domain_ignores_case_and_padding "Example.COM" "example.com"
           "  " " "); reflexivity.
Defined.

Lemma contains_lower_inside (p out a b : string) :
  contains p (lower out) = true ->
  contains p (lower (a +:+ out +:+ b)) = true.
Proof.
  intros (x & y & Hxy)%contains_spec. apply contains_spec.
  exists (lower a +:+ x), (y +:+ lower b).
  rewrite !lower_app, Hxy. now rewrite !append_assoc.
Qed.

(** X8.  The registration status is a scan of the whole output: when an
    output is judged not registered, so is every output that contains
    it, whatever is written before and after. *)
Theorem not_registered_is_kept_inside (d d' out a b err err' t t' : string) :
  is_registered
    (whois_domain d {| run := Completes 0 out err; now := t |})
  = Some false ->
  is_registered
    (whois_domain d'
       {| run := Completes 0 (a +:+ out +:+ b) err'; now := t' |})
  = Some false.
Proof.
  unfold whois_domain, run_whois_command.
  cbn -[existsb unavailable_phrases].
  destruct (existsb _ unavailable_phrases) eqn:E; [|discriminate].
  intros _. apply existsb_exists in E as (p & Hp & Hc).
  assert (existsb (fun phrase =>
            contains phrase (lower (a +:+ out +:+ b)))
            unavailable_phrases = true) as ->; [|reflexivity].
  apply existsb_exists. exists p. split; [exact Hp|].
  now apply contains_lower_inside.
Qed.

Lemma not_registered_is_kept_inside_witness :
  is_registered
    (whois_domain "example.com"
       (prints ("Registrar: Example Inc" +:+ String newline ""
                +:+ no_match_text +:+ " (remark)")))
  = Some false.
Proof.
  apply (not_registered_is_kept_inside "nope123xyz.com" "example.com"
           no_match_text ("Registrar: Example Inc" +:+ String newline "")
           " (remark)" "" "" "" "2024-01-01T00:00:00+00:00").
  reflexivity.
Defined.

End SingleLookupMore.

(* ===================================================================== *)
(** * More about the bulk lookup *)
(* ===================================================================== *)

Section BulkLookupMore.

Local Open Scope list_scope.

Variable world : nat -> task_run.

(** X9.  In the summary of every bulk lookup the four counters are
    natural numbers: [registered_domains], [errors] and
    [available_domains] are never negative, and none exceeds
    [total_domains]. *)
Theorem summary_counters_in_range (domains : list string)
  (clock : string) :
  let s := summary (whois_domains domains world clock) in
  (0 <= registered_domains s <= total_domains s
   /\ 0 <= errors s <= total_domains s
   /\ 0 <= available_domains s <= total_domains s)%Z.
Proof.
  pose proof (counters_bounds world domains clock) as H.
  unfold whois_domains in *.
  cbn [summary registered_domains errors total_domains
       available_domains] in *.
  lia.
Qed.

Lemma size_results (ds : list string) (clock : string) :
  size (results (whois_domains ds world clock)) <= length ds.
Proof.
  induction ds as [|x ds IH] using rev_ind.
  - unfold whois_domains. simpl. now rewrite map_size_empty.
  - rewrite results_snoc, length_app. cbn [length].
    destruct (world (length ds)); [lia|].
    rewrite map_size_insert.
    destruct (results (whois_domains ds world clock) !! x);
      unfold id; lia.
Qed.

(** X10.  [results] has an entry under a string exactly when some task
    that was given this string returned; the entry is then the result of
    a lookup of this string, so its [query] is the cleaned string.
    [results] has at most one entry per input. *)
Theorem results_entries (domains : list string) (clock k : string) :
  (is_Some (results (whois_domains domains world clock) !! k)
   <-> exists j e, domains !! j = Some k /\ world j = TaskRuns e)
  /\ (forall r, results (whois_domains domains world clock) !! k = Some r ->
        query r = clean_domain k
        /\ exists j e, domains !! j = Some k /\ world j = TaskRuns e
                       /\ r = whois_domain k e)
  /\ size (results (whois_domains domains world clock)) <= length domains.
Proof.
  split_and!.
  - split.
    + intros [r Hr].
      destruct (results_key_is_input world domains clock k r Hr)
        as (j & e & Hj & Hw & _).
      eauto.
    + intros (j & e & Hj & Hw).
      destruct (results_has_input world domains clock j k e Hj Hw)
        as (j' & e' & _ & _ & Hr).
      eauto.
  - intros r Hr.
    destruct (results_key_is_input world domains clock k r Hr)
      as (j & e & Hj & Hw & ->).
    split; [apply whois_domain_query | eauto].
  - apply size_results.
Qed.

Lemma fold_process_result_counts (l : list task_result) (a : acc) :
  registered_count (fold_left process_result l a)
  = (registered_count a
     + Z.of_nat (length (List.filter found_registered l)))%Z
  /\ error_count (fold_left process_result l a)
     = (error_count a + Z.of_nat (length (List.filter failed l)))%Z.
Proof.
  revert a. induction l as [|r l IH]; intros a; [simpl; lia|].
  cbn [fold_left List.filter].
  destruct (IH (process_result a r)) as [-> ->].
  destruct r as [|d r]; cbn [process_result registered_count error_count
                            found_registered failed].
  - cbn [length]. lia.
  - destruct (default false (is_registered r));
      destruct (bool_decide (is_Some (error r))); cbn [length]; lia.
Qed.

(** X11.  The summary counts tasks, not entries of [results]:
    [errors] is the number of tasks that raised or returned a result
    with an [error], and [registered_domains] the number of tasks that
    returned a result with a true [is_registered]; a string given twice
    is counted twice. *)
Theorem summary_counts_tasks (domains : list string) (clock : string) :
  let s := summary (whois_domains domains world clock) in
  errors s
  = Z.of_nat (length (List.filter failed (gather world domains)))
  /\ registered_domains s
     = Z.of_nat (length (List.filter found_registered
                                    (gather world domains)))
  /\ length (gather world domains) = length domains.
Proof.
  unfold whois_domains. cbn [summary errors registered_domains].
  destruct (fold_process_result_counts (gather world domains) acc0)
    as [-> ->].
  split_and!; [reflexivity..|]. unfold gather. apply length_imap.
Qed.

End BulkLookupMore.

(* ===================================================================== *)
(** * The cleanup of a URL *)
(* ===================================================================== *)

Section UrlCleanup.

Local Open Scope list_scope.

Lemma all_chars_impl (f g : ascii -> bool) (s : string) :
  (forall c, f c = true -> g c = true) ->
  all_chars f s = true -> all_chars g s = true.
Proof.
  intros Hfg. induction s as [|c s IH]; [reflexivity|].
  cbn [all_chars]. intros [Hc Hs]%andb_true_iff.
  now rewrite (Hfg c Hc), (IH Hs).
Qed.


Lemma plain_not_colon (s : string) :
  all_chars plain s = true -> all_chars (not_char colon) s = true.
Proof.
  apply all_chars_impl. unfold plain. intros c H.
  now apply andb_true_iff in H as [[_ H]%andb_true_iff _].
Qed.

Lemma plain_not_slash (s : string) :
  all_chars plain s = true -> all_chars (not_char slash) s = true.
Proof.
  apply all_chars_impl. unfold plain. intros c H.
  now apply andb_true_iff in H as [_ H].
Qed.



Lemma startswith_cons_nil (a : ascii) (p : string) :
  startswith (String a p) "" = false.
Proof. reflexivity. Qed.

(** Break a hypothesis [startswith p s = true] into the equalities of
    the characters. *)
Ltac match_chars H :=
  repeat (rewrite startswith_cons in H;
          let E := fresh "E" in apply andb_true_iff in H as [E H];
          apply Ascii.eqb_eq in E);
  try (rewrite startswith_cons_nil in H; discriminate H).

(** Inside a host or a port, and up to what follows it, no scheme
    begins. *)
Lemma no_scheme_at (old s r : string) :
  old = "http://" \/ old = "https://" ->
  s <> "" -> all_chars plain s = true -> tail_ok r = true ->
  startswith old (s +:+ r) = false.
Proof.
  intros Hold Hne Hs Hr. apply not_true_iff_false. intros Hm.
  destruct s as [|c0 [|c1 [|c2 [|c3 [|c4 [|c5 s]]]]]]; [congruence|..];
    cbn [all_chars] in Hs;
    repeat (let P := fresh "P" in apply andb_true_iff in Hs as [P Hs]);
    rewrite ?append_cons, ?append_nil_l in Hm;
    destruct r as [|x [|y t]];
    destruct Hold as [-> | ->];
    match_chars Hm; subst;
    try discriminate; vm_compute in Hr; try discriminate.
Qed.

Lemma replace_go_plain (old s r : string) :
  old = "http://" \/ old = "https://" ->
  all_chars plain s = true -> tail_ok r = true ->
  replace_go old "" 0 (s +:+ r) = s +:+ replace_go old "" 0 r.
Proof.
  intros Hold Hs Hr. induction s as [|c s IH]; [reflexivity|].
  pose proof (no_scheme_at old (String c s) r Hold) as Hno.
  rewrite append_cons in *. cbn [replace_go].
  rewrite Hno by (congruence || assumption).
  cbn [all_chars] in Hs. apply andb_true_iff in Hs as [_ Hs].
  now rewrite (IH Hs).
Qed.

Lemma replace_go_other_head (old : string) (x : ascii) (t : string) :
  old = "http://" \/ old = "https://" -> x <> "h"%char ->
  replace_go old "" 0 (String x t) = String x (replace_go old "" 0 t).
Proof.
  intros Hold Hx. cbn [replace_go].
  assert (startswith old (String x t) = false) as ->; [|reflexivity].
  apply not_true_iff_false. intros Hm.
  destruct Hold as [-> | ->]; match_chars Hm; congruence.
Qed.

Lemma tail_ok_path (path : option string) :
  tail_ok (match path with Some p => "/" +:+ p | None => "" end) = true.
Proof. now destruct path. Qed.

Lemma tail_ok_url_tail (port path : option string) :
  port_ok port = true -> tail_ok (url_tail port path) = true.
Proof.
  unfold url_tail. destruct port as [[|x p]|]; try discriminate.
  - cbn [port_ok nonempty all_chars andb].
    intros [Hx _]%andb_true_iff. rewrite append_assoc, !append_cons.
    cbn [tail_ok append]. rewrite append_nil_l.
    unfold plain in Hx. apply andb_true_iff in Hx as [_ Hx].
    unfold not_char in Hx. now rewrite Hx.
  - intros _. apply tail_ok_path.
Qed.

(** A replacement of a scheme goes through the port and starts again in
    the path. *)
Lemma replace_go_url_tail (old : string) (port path : option string) :
  old = "http://" \/ old = "https://" -> port_ok port = true ->
  replace_go old "" 0 (url_tail port path)
  = url_tail port (option_map (replace_go old "" 0) path).
Proof.
  intros Hold Hport.
  assert (Hpath : replace_go old "" 0
            (match path with Some p => "/" +:+ p | None => "" end)
          = match option_map (replace_go old "" 0) path with
            | Some p => "/" +:+ p
            | None => ""
            end).
  { destruct path as [p|]; [|reflexivity].
    now apply replace_go_other_head. }
  unfold url_tail. destruct port as [p|].
  - cbn [port_ok] in Hport. apply andb_true_iff in Hport as [_ Hp].
    rewrite !append_assoc, !append_cons, !append_nil_l.
    rewrite replace_go_other_head by (assumption || discriminate).
    rewrite replace_go_plain by (assumption || apply tail_ok_path).
    now rewrite Hpath.
  - rewrite !append_nil_l. exact Hpath.
Qed.

Lemma replace_go_url (old host : string) (port path : option string) :
  old = "http://" \/ old = "https://" ->
  all_chars plain host = true -> port_ok port = true ->
  replace_go old "" 0 (host +:+ url_tail port path)
  = host +:+ url_tail port (option_map (replace_go old "" 0) path).
Proof.
  intros Hold Hh Hp.
  rewrite replace_go_plain by (assumption || now apply tail_ok_url_tail).
  now rewrite replace_go_url_tail.
Qed.

Lemma replace_go_skip (old new a t : string) :
  replace_go old new (String.length a) (a +:+ t) = replace_go old new 0 t.
Proof.
  induction a as [|c a IH]; [reflexivity|].
  rewrite append_cons. exact IH.
Qed.

(** An occurrence at the start is replaced, and the search goes on after
    it. *)
Lemma replace_go_at_match (c : ascii) (old new t : string) :
  replace_go (String c old) new 0 (String c old +:+ t)
  = new +:+ replace_go (String c old) new 0 t.
Proof.
  rewrite append_cons. cbn [replace_go].
  rewrite <- append_cons, startswith_app_self.
  cbn [String.length Nat.sub]. rewrite Nat.sub_0_r.
  now rewrite replace_go_skip.
Qed.

Lemma replace_http_in_https (t : string) :
  replace_go "http://" "" 0 ("https://" +:+ t)
  = "https://" +:+ replace_go "http://" "" 0 t.
Proof. reflexivity. Qed.

(** The host of a URL text is what the two replacements and the two
    cuts leave. *)
Lemma host_of_url_text (scheme host : string) (port path : option string) :
  scheme = "" \/ scheme = "http://" \/ scheme = "https://" ->
  all_chars plain host = true -> port_ok port = true ->
  hd "" (split colon
           (hd "" (split slash
                     (replace "https://" ""
                        (replace "http://" ""
                           (url_text scheme host port path))))))
  = host.
Proof.
  intros Hscheme Hh Hp.
  assert (exists path',
            replace "https://" ""
              (replace "http://" "" (url_text scheme host port path))
            = host +:+ url_tail port path') as [path' ->].
  { cbv beta iota delta [replace]. unfold url_text.
    destruct Hscheme as [-> | [-> | ->]].
    - rewrite append_nil_l. rewrite !replace_go_url by auto. eauto.
    - rewrite replace_go_at_match, append_nil_l.
      rewrite !replace_go_url by auto. eauto.
    - rewrite replace_http_in_https, replace_go_url by auto.
      rewrite replace_go_at_match, append_nil_l.
      rewrite replace_go_url by auto. eauto. }
  assert (Hcut : hd "" (split slash (host +:+ url_tail port path'))
                 = host +:+ match port with
                            | Some p => ":" +:+ p
                            | None => ""
                            end).
  { unfold url_tail. rewrite <- append_assoc.
    assert (all_chars (not_char slash)
              (host +:+ match port with
                        | Some p => ":" +:+ p
                        | None => ""
                        end) = true) as Hns.
    { rewrite all_chars_app, (plain_not_slash host Hh).
      destruct port as [p|]; [|reflexivity].
      cbn [port_ok] in Hp. apply andb_true_iff in Hp as [_ Hp].
      apply (plain_not_slash p Hp). }
    destruct path' as [p'|].
    - change ("/" +:+ p') with (String slash p').
      rewrite split_app_sep, (split_absent slash _ Hns). reflexivity.
    - rewrite append_nil_r, (split_absent slash _ Hns). reflexivity. }
  rewrite Hcut. destruct port as [p|].
  - change (":" +:+ p) with (String colon p).
    rewrite split_app_sep, (split_absent colon host (plain_not_colon _ Hh)).
    reflexivity.
  - rewrite append_nil_r.
    now rewrite (split_absent colon host (plain_not_colon _ Hh)).
Qed.

Lemma lstrip_nonspace (a : string) :
  all_chars not_space a = true -> lstrip a = a.
Proof.
  destruct a as [|c a]; [reflexivity|].
  cbn [all_chars]. unfold not_space at 1.
  intros [Hc _]%andb_true_iff. apply negb_true_iff in Hc.
  simpl. now rewrite Hc.
Qed.






(** X13.  [resolve_domain_ip] resolves the host of a URL as it is
    written: for a text made of an optional scheme, a host without white
    space, [:] and [/], an optional port and an optional path, the name
    given to the resolver is the host, unchanged, and the result is what
    the resolver gives, [None] when it raises. *)
Theorem resolve_domain_ip_of_url (scheme host : string)
  (port path : option string) (gethostbyname : string -> option string) :
  scheme = "" \/ scheme = "http://" \/ scheme = "https://" ->
  all_chars plain host = true -> port_ok port = true ->
  resolve_domain_ip (url_text scheme host port path) gethostbyname
  = gethostbyname host.
Proof.
  intros Hscheme Hh Hp. unfold resolve_domain_ip.
  now rewrite host_of_url_text.
Qed.

Lemma resolve_domain_ip_of_url_witness :
  resolve_domain_ip "http://Example.com:80/index.html"
    (fun h => if String.eqb h "Example.com" then Some "93.184.216.34"
              else None)
  = Some "93.184.216.34".
Proof.
  exact (resolve_domain_ip_of_url "http://" "Example.com" (Some "80")
           (Some "index.html") _ (or_intror (or_introl eq_refl))
           eq_refl eq_refl).
Defined.

End UrlCleanup.

(* ===================================================================== *)
(** * The lookups of a TLD, of an address and of an AS number *)
(* ===================================================================== *)

Section SpecialisedLookups.

Lemma run_whois_command_no_status (q : string) (timeout : Z) (e : env) :
  is_registered (run_whois_command q timeout e) = None
  /\ analysis (run_whois_command q timeout e) = None.
Proof.
  unfold run_whois_command.
  destruct (run e) as [m| |rc out err]; [now split..|].
  now destruct (negb (rc =? 0)%Z).
Qed.

Lemma strip_nonspace (s : string) :
  all_chars not_space s = true -> strip s = s.
Proof.
  intros H. unfold strip. rewrite (lstrip_nonspace s H).
  pose proof (rstrip_app_nonspace s "" H) as Hr.
  now rewrite !append_nil_r in Hr.
Qed.

Lemma whois_tld_query (tld : string) (e : env) :
  query (whois_tld tld e)
  = if startswith "." (lower (strip tld)) then lower (strip tld)
    else "." +:+ lower (strip tld).
Proof.
  unfold whois_tld. rewrite run_whois_command_query.
  now destruct (startswith "." (lower (strip tld))).
Qed.

(** X14.  The query of a TLD lookup always starts with a dot, is
    lower-case and has no white space around it; it is a fixed point:
    looking up the query itself queries the same text. *)
Theorem whois_tld_query_normal (tld : string) (e e' : env) :
  let q := query (whois_tld tld e) in
  startswith "." q = true /\ lower q = q /\ strip q = q
  /\ query (whois_tld q e') = q.
Proof.
  cbn zeta. rewrite whois_tld_query.
  set (t := lower (strip tld)).
  assert (Hlow : lower t = t) by apply lower_idem.
  assert (Hstrip : strip t = t)
    by (unfold t; now rewrite strip_lower, strip_idem).
  assert (Hr : rstrip t = t).
  { unfold t. rewrite rstrip_lower. unfold strip. now rewrite rstrip_idem. }
  assert (Hfix : forall q, startswith "." q = true -> lower q = q ->
            strip q = q -> query (whois_tld q e') = q).
  { intros q H1 H2 H3. now rewrite whois_tld_query, H3, H2, H1. }
  destruct (startswith "." t) eqn:E.
  - split_and!; auto.
  - assert (startswith "." ("." +:+ t) = true) as H1
      by apply startswith_app_self.
    assert (lower ("." +:+ t) = "." +:+ t) as H2
      by (rewrite lower_app, Hlow; reflexivity).
    assert (strip ("." +:+ t) = "." +:+ t) as H3.
    { unfold strip. change ("." +:+ t) with (String "." t).
      cbn [lstrip]. change (is_space ".") with false. cbn iota.
      now rewrite rstrip_cons_nonspace, Hr. }
    split_and!; auto.
Qed.

(** X15.  An address lookup only trims its argument: white space around
    the address changes nothing, and an address without white space at
    its ends is queried as it is written, with its colons and its
    upper-case letters. *)
Theorem whois_ip_only_trims (ip w1 w2 : string) (e : env) :
  all_chars is_space w1 = true -> all_chars is_space w2 = true ->
  whois_ip (w1 +:+ ip +:+ w2) e = whois_ip ip e
  /\ query (whois_ip ip e) = strip ip
  /\ (all_chars not_space ip = true -> query (whois_ip ip e) = ip).
Proof.
  intros H1 H2. unfold whois_ip. rewrite strip_padding by assumption.
  rewrite run_whois_command_query. split_and!; try reflexivity.
  apply strip_nonspace.
Qed.

Lemma whois_ip_only_trims_witness :
  query (whois_ip (" " +:+ "2001:DB8::1" +:+ String newline "")
           (prints ""))
  = "2001:DB8::1".
Proof.
  destruct (whois_ip_only_trims "2001:DB8::1" " " (String newline "")
              (prints "") eq_refl eq_refl) as (-> & _ & H).
  exact (H eq_refl).
Defined.

(** ** AS numbers *)

Lemma is_digit_upper_char (c : ascii) :
  is_digit c = true -> upper_char c = Some (String c "").
Proof. destruct c as [[] [] [] [] [] [] [] []]; (discriminate || reflexivity). Qed.

Lemma is_digit_not_space (c : ascii) :
  is_digit c = true -> not_space c = true.
Proof. destruct c as [[] [] [] [] [] [] [] []]; (discriminate || reflexivity). Qed.

Lemma upper_digits (s : string) :
  all_chars is_digit s = true -> upper s = Some s.
Proof.
  induction s as [|c s IH]; [reflexivity|].
  cbn [all_chars upper]. intros [Hc Hs]%andb_true_iff.
  now rewrite (is_digit_upper_char c Hc), (IH Hs).
Qed.

Lemma string_of_uint_digits (u : Decimal.uint) :
  all_chars is_digit (NilEmpty.string_of_uint u) = true.
Proof. induction u; simpl; auto. Qed.

(** The decimal form of a natural number is a non-empty text of
    digits. *)
Lemma str_of_int_isdigit (n : Z) :
  (0 <= n)%Z -> isdigit (str_of_int n) = true.
Proof.
  intros Hn. destruct n as [|p|p]; [reflexivity| |lia].
  unfold str_of_int, isdigit. cbn [Z.to_int NilZero.string_of_int].
  pose proof (Unsigned.to_uint_nonnil p) as Hnn.
  unfold NilZero.string_of_uint.
  destruct (Pos.to_uint p) as [|u|u|u|u|u|u|u|u|u|u] eqn:E;
    [congruence|..];
    rewrite <- E at 2; now rewrite string_of_uint_digits.
Qed.

Lemma whois_asn_digits (d w1 w2 : string) (e : env) :
  isdigit d = true ->
  all_chars is_space w1 = true -> all_chars is_space w2 = true ->
  whois_asn (AsnStr (w1 +:+ d +:+ w2)) e
  = Some (run_whois_command ("AS" +:+ d) 10 e).
Proof.
  intros Hd H1 H2. unfold whois_asn.
  pose proof Hd as Hd'. unfold isdigit in Hd'.
  apply andb_true_iff in Hd' as [_ Hdig].
  rewrite strip_padding by assumption.
  rewrite strip_nonspace
    by (revert Hdig; apply all_chars_impl, is_digit_not_space).
  now rewrite (upper_digits d Hdig), Hd.
Qed.

Lemma whois_asn_prefixed (a s d w1 w2 : string) (e : env) :
  a = "A"%string \/ a = "a"%string -> s = "S"%string \/ s = "s"%string ->
  isdigit d = true ->
  all_chars is_space w1 = true -> all_chars is_space w2 = true ->
  whois_asn (AsnStr (w1 +:+ (a +:+ s +:+ d) +:+ w2)) e
  = Some (run_whois_command ("AS" +:+ d) 10 e).
Proof.
  intros Ha Hs Hd H1 H2. unfold whois_asn.
  unfold isdigit in Hd. apply andb_true_iff in Hd as [_ Hdig].
  rewrite strip_padding by assumption.
  assert (all_chars not_space (a +:+ s +:+ d) = true) as Hns.
  { rewrite !all_chars_app.
    rewrite (all_chars_impl _ _ d is_digit_not_space Hdig).
    destruct Ha as [-> | ->], Hs as [-> | ->]; reflexivity. }
  rewrite (strip_nonspace _ Hns).
  assert (upper (a +:+ s +:+ d) = Some ("AS" +:+ d)) as ->.
  { destruct Ha as [-> | ->], Hs as [-> | ->];
      rewrite !append_cons, !append_nil_l; cbn [upper];
      rewrite (upper_digits d Hdig); reflexivity. }
  reflexivity.
Qed.

(** X16.  A natural number of at most 4300 digits (the longest that the
    interpreter converts to text) is looked up in the same way whether
    it is given as an integer, as its decimal text, or as its decimal
    text after [AS] in either case, with or without white space around
    the text: the query is [AS] followed by the decimal text. *)
Theorem whois_asn_number_forms (n : Z) (a s w1 w2 : string) (e : env) :
  (0 <= n < 10 ^ 4300)%Z ->
  a = "A"%string \/ a = "a"%string -> s = "S"%string \/ s = "s"%string ->
  all_chars is_space w1 = true -> all_chars is_space w2 = true ->
  whois_asn (AsnInt n) e
  = Some (run_whois_command ("AS" +:+ str_of_int n) 10 e)
  /\ whois_asn (AsnStr (w1 +:+ str_of_int n +:+ w2)) e
     = whois_asn (AsnInt n) e
  /\ whois_asn (AsnStr (w1 +:+ (a +:+ s +:+ str_of_int n) +:+ w2)) e
     = whois_asn (AsnInt n) e.
Proof.
  intros [Hn _] Ha Hs H1 H2. pose proof (str_of_int_isdigit n Hn) as Hd.
  split_and!.
  - reflexivity.
  - now rewrite whois_asn_digits.
  - now rewrite (whois_asn_prefixed a s).
Qed.

Lemma whois_asn_number_forms_witness :
  option_map query (whois_asn (AsnStr (" " +:+ "15169" +:+ "")) (prints ""))
  = Some "AS15169"
  /\ option_map query
       (whois_asn (AsnStr ("" +:+ ("a" +:+ "s" +:+ "15169") +:+ " "))
          (prints ""))
     = Some "AS15169".
Proof.
  assert (0 <= 15169 < 10 ^ 4300)%Z as Hn
    by (split; [discriminate | reflexivity]).
  destruct (whois_asn_number_forms 15169 "a" "s" " " "" (prints "") Hn)
    as (_ & H1 & _); [now right | now right | reflexivity..|].
  destruct (whois_asn_number_forms 15169 "a" "s" "" " " (prints "") Hn)
    as (_ & _ & H2); [now right | now right | reflexivity..|].
  split.
  - change (str_of_int 15169) with "15169" in H1. now rewrite H1.
  - change (str_of_int 15169) with "15169" in H2. now rewrite H2.
Defined.

(** X17.  The lookups of a TLD, of an address and of an AS number never
    attach a registration status: their results have neither
    [is_registered] nor [analysis], whatever the resolver does. *)
Theorem specialised_lookups_no_status (tld ip_address : string)
  (asn : asn_input) (e : env) :
  (is_registered (whois_tld tld e) = None
   /\ analysis (whois_tld tld e) = None)
  /\ (is_registered (whois_ip ip_address e) = None
      /\ analysis (whois_ip ip_address e) = None)
  /\ match whois_asn asn e with
     | Some r => is_registered r = None /\ analysis r = None
     | None => True
     end.
Proof.
  split_and!; try apply run_whois_command_no_status.
  unfold whois_asn. destruct asn as [n|s].
  - apply run_whois_command_no_status.
  - destruct (upper (strip s)); [|exact I].
    apply run_whois_command_no_status.
Qed.

End SpecialisedLookups.

(** A bulk lookup in which the same string is given twice and the task
    of another string raises. *)
Lemma results_entries_witness :
  let world := fun i : nat =>
    match i with 1 => TaskRaises | _ => TaskRuns (prints sample_text) end in
  let r := whois_domains ["a.com"; "b.com"; "a.com"] world "" in
  is_Some (results r !! "a.com") /\ results r !! "b.com" = None
  /\ size (results r) <= 3.
Proof.
  intros world r.
  destruct (results_entries world ["a.com"; "b.com"; "a.com"] "" "a.com")
    as (Ha & _ & Hsize).
  destruct (results_entries world ["a.com"; "b.com"; "a.com"] "" "b.com")
    as (Hb & _ & _).
  split_and!.
  - apply Ha. exists 0, (prints sample_text). now split.
  - destruct (results r !! "b.com") as [x|] eqn:E; [|reflexivity].
    destruct (proj1 Hb (ex_intro _ x E)) as ([|[|[|j]]] & e & Hj & Hw);
      discriminate.
  - exact Hsize.
Defined.

(* ===================================================================== *)
(** * The order of the tasks *)
(* ===================================================================== *)

Section TaskOrder.

Local Open Scope list_scope.

(** Two states of the loop with the same counters and the same keys. *)
Lemma process_result_same (a a' : acc) (r : task_result) :
  registered_count a = registered_count a' ->
  error_count a = error_count a' ->
  dom (domain_results a) = dom (domain_results a') ->
  registered_count (process_result a r)
  = registered_count (process_result a' r)
  /\ error_count (process_result a r) = error_count (process_result a' r)
  /\ dom (domain_results (process_result a r))
     = dom (domain_results (process_result a' r)).
Proof.
  intros Hr He Hd. destruct r as [|d r]; simpl.
  - now rewrite Hr, He, Hd.
  - now rewrite !dom_insert_L, Hr, He, Hd.
Qed.

Lemma fold_process_result_same (l : list task_result) (a a' : acc) :
  registered_count a = registered_count a' ->
  error_count a = error_count a' ->
  dom (domain_results a) = dom (domain_results a') ->
  registered_count (fold_left process_result l a)
  = registered_count (fold_left process_result l a')
  /\ error_count (fold_left process_result l a)
     = error_count (fold_left process_result l a')
  /\ dom (domain_results (fold_left process_result l a))
     = dom (domain_results (fold_left process_result l a')).
Proof.
  revert a a'. induction l as [|r l IH]; intros a a' Hr He Hd;
    [now split_and!|].
  simpl. destruct (process_result_same a a' r Hr He Hd) as (? & ? & ?).
  now apply IH.
Qed.

Lemma process_result_swap (a : acc) (x y : task_result) :
  registered_count (process_result (process_result a x) y)
  = registered_count (process_result (process_result a y) x)
  /\ error_count (process_result (process_result a x) y)
     = error_count (process_result (process_result a y) x)
  /\ dom (domain_results (process_result (process_result a x) y))
     = dom (domain_results (process_result (process_result a y) x)).
Proof.
  destruct x as [|dx rx], y as [|dy ry]; simpl; split_and!;
    try reflexivity;
    repeat match goal with
           | |- context [if ?b then _ else _] => destruct b
           end;
    try lia.
  rewrite !dom_insert_L. apply set_eq. intros k.
  rewrite !elem_of_union. tauto.
Qed.

Lemma fold_process_result_perm (l1 l2 : list task_result) :
  Permutation l1 l2 ->
  forall a,
    registered_count (fold_left process_result l1 a)
    = registered_count (fold_left process_result l2 a)
    /\ error_count (fold_left process_result l1 a)
       = error_count (fold_left process_result l2 a)
    /\ dom (domain_results (fold_left process_result l1 a))
       = dom (domain_results (fold_left process_result l2 a)).
Proof.
  induction 1 as [|x l1 l2 Hp IH|x y l|l1 l2 l3 Hp1 IH1 Hp2 IH2]; intros a.
  - now split_and!.
  - simpl. apply IH.
  - simpl. destruct (process_result_swap a y x) as (? & ? & ?).
    now apply fold_process_result_same.
  - destruct (IH1 a) as (-> & -> & ->). apply IH2.
Qed.

(** X18.  The summary and the keys of [results] do not depend on the
    order in which the tasks are gathered: two bulk lookups whose tasks
    gave the same outcomes in a different order have the same counters
    and entries under the same strings. *)
Theorem summary_order_independent (domains domains' : list string)
  (world world' : nat -> task_run) (clock clock' : string) :
  Permutation (gather world domains) (gather world' domains') ->
  let s := summary (whois_domains domains world clock) in
  let s' := summary (whois_domains domains' world' clock') in
  total_domains s = total_domains s'
  /\ registered_domains s = registered_domains s'
  /\ available_domains s = available_domains s'
  /\ errors s = errors s'
  /\ dom (results (whois_domains domains world clock))
     = dom (results (whois_domains domains' world' clock')).
Proof.
  intros Hperm.
  assert (length domains = length domains') as Hlen.
  { apply Permutation_length in Hperm. unfold gather in Hperm.
    now rewrite !length_imap in Hperm. }
  destruct (fold_process_result_perm _ _ Hperm acc0) as (Hr & He & Hd).
  unfold whois_domains.
  cbn [summary results total_domains registered_domains available_domains
       errors].
  rewrite Hr, He, Hd, Hlen. now split_and!.
Qed.

Lemma summary_order_independent_witness :
  let world := fun i : nat =>
    match i with 0 => TaskRaises | _ => TaskRuns (prints sample_text) end in
  let world' := fun i : nat =>
    match i with 1 => TaskRaises | _ => TaskRuns (prints sample_text) end in
  errors (summary (whois_domains ["a.com"; "b.com"] world ""))
  = errors (summary (whois_domains ["b.com"; "a.com"] world' "")).
Proof.
  intros world world'.
  destruct (summary_order_independent ["a.com"; "b.com"]
              ["b.com"; "a.com"] world world' "" "")
    as (_ & _ & _ & H & _); [|exact H].
  apply perm_swap.
Defined.

End TaskOrder.

(* ===================================================================== *)
(** * The unpacking of a line *)
(* ===================================================================== *)

Section Unpacking.

(** X19.  The unpacking [key, value = line.split(':', 1)] never fails
    under its guard: a line with a colon is split in exactly two parts,
    the first without colon, which joined by a colon give the line back;
    a line without colon would be left in one piece. *)
Theorem split1_round_trip (line : string) :
  (contains ":" line = true ->
   exists key value,
     split1 colon line = [key; value]
     /\ line = key +:+ ":" +:+ value
     /\ contains ":" key = false)
  /\ (contains ":" line = false -> split1 colon line = [line]).
Proof.
  split.
  - intros H. destruct (split1_two colon line H) as (k & v & Hs & Hl & Hk).
    exists k, v. split_and!; [exact Hs | exact Hl |].
    change ":" with (String colon ""). now rewrite contains_char, Hk.
  - apply split1_absent.
Qed.

Lemma split1_round_trip_witness :
  exists key value,
    split1 colon "Updated Date: 2024-01-02T03:04:05Z" = [key; value]
    /\ "Updated Date: 2024-01-02T03:04:05Z" = key +:+ ":" +:+ value
    /\ contains ":" key = false.
Proof.
  exact (proj1 (split1_round_trip "Updated Date: 2024-01-02T03:04:05Z")
           eq_refl).
Defined.

End Unpacking.
